(** * The event-recommendation agent pipeline (agent-events.ts)

    A shallow embedding of the two agents and of the controller that
    sequences them:

    - [eventLookupAgent]: a LangGraph state graph (agent node, tool node)
      run under a recursion limit, with the [events_lookup] tool;
    - [webSearchAgent]: directive extraction, one time-boxed web search per
      directive, one time-boxed synthesis call;
    - [callAgent]: the controller that reads the handoff markers out of the
      retrieval agent's text and decides what runs next.

    JavaScript strings are sequences of UTF-16 code units; the built-ins the
    source uses on them ([includes], [split], [trim], [JSON.stringify],
    [JSON.parse]) are written out in module [JS].  The external
    collaborators (chat model, vector store, web search, checkpoint store)
    are fields of an environment record. *)

From Stdlib Require Import List NArith ZArith Bool String Ascii Lia.
From Stdlib Require Import DecimalString DecimalN.
Import ListNotations.

Set Warnings "-register-all".

Local Open Scope N_scope.
Local Open Scope list_scope.

(** ** JavaScript strings *)

Module JS.

(** A code unit is a 16-bit value; nothing below depends on the bound. *)
Definition code_unit := N.
Definition jsstring := list code_unit.

(** An ASCII literal as a JavaScript string. *)
Definition js (s : string) : jsstring :=
  map N_of_ascii (list_ascii_of_string s).

Fixpoint jsstring_eqb (a b : jsstring) : bool :=
  match a, b with
  | [], [] => true
  | x :: a', y :: b' => (x =? y) && jsstring_eqb a' b'
  | _, _ => false
  end.

(** [IsStringPrefix(s, p)] of the language specification. *)
Fixpoint startsWith (s p : jsstring) : bool :=
  match p, s with
  | [], _ => true
  | _ :: _, [] => false
  | a :: p', b :: s' => (a =? b) && startsWith s' p'
  end.

(** [String.prototype.includes]. *)
Fixpoint includes (s needle : jsstring) : bool :=
  startsWith s needle ||
  match s with
  | [] => false
  | _ :: t => includes t needle
  end.

(** [String.prototype.indexOf]: the position of the leftmost occurrence. *)
Fixpoint indexOf (s needle : jsstring) : option nat :=
  if startsWith s needle then Some O
  else match s with
       | [] => None
       | _ :: t => option_map S (indexOf t needle)
       end.

(** [String.prototype.split] with a string separator and no limit.  The
    scan goes left to right; at the leftmost occurrence of the separator the
    current piece is closed and the separator's code units are skipped
    ([skip] counts those still to be passed over).  The head of the result
    is the piece under construction. *)
Fixpoint split_from (sep : jsstring) (skip : nat) (s : jsstring)
  : list jsstring :=
  match s with
  | [] => [[]]
  | c :: t =>
      match skip with
      | S k => split_from sep k t
      | O =>
          if startsWith s sep
          then [] :: split_from sep (pred (List.length sep)) t
          else match split_from sep O t with
               | p :: ps => (c :: p) :: ps
               | [] => [[c]]
               end
      end
  end.

Definition split (s sep : jsstring) : list jsstring :=
  match sep with
  | [] => map (fun c => [c]) s
  | _ :: _ => split_from sep O s
  end.

(** [WhiteSpace] and [LineTerminator] code points, as [trim] strips them. *)
Definition is_white_space (c : code_unit) : bool :=
  (c =? 9) || (c =? 10) || (c =? 11) || (c =? 12) || (c =? 13) || (c =? 32)
  || (c =? 160) || (c =? 5760)
  || ((8192 <=? c) && (c <=? 8202))
  || (c =? 8232) || (c =? 8233) || (c =? 8239) || (c =? 8287)
  || (c =? 12288) || (c =? 65279).

Fixpoint trimStart (s : jsstring) : jsstring :=
  match s with
  | [] => []
  | c :: t => if is_white_space c then trimStart t else s
  end.

Definition trimEnd (s : jsstring) : jsstring := rev (trimStart (rev s)).

(** [String.prototype.trim]. *)
Definition trim (s : jsstring) : jsstring := trimEnd (trimStart s).

(** [Array.prototype.join]. *)
Fixpoint join (sep : jsstring) (parts : list jsstring) : jsstring :=
  match parts with
  | [] => []
  | [p] => p
  | p :: ps => p ++ sep ++ join sep ps
  end.

(** ** JSON values, [JSON.stringify] and [JSON.parse] *)

(** A finite decimal: [(-1)^negative * mantissa * 10^exponent10].  This is
    the exact value of a JSON number literal. *)
Record number := { negative : bool; mantissa : N; exponent10 : Z }.

Inductive json :=
| JNull
| JBool (b : bool)
| JNumber (n : number)
| JString (s : jsstring)
| JArray (elements : list json)
| JObject (members : list (jsstring * json)).

(** The Number value of a decimal is zero when the decimal is zero or lies
    at or below half the least positive double, 2^-1075 (ties go to the even
    neighbour, which is zero). *)
Definition rounds_to_zero (n : number) : bool :=
  (mantissa n =? 0)
  || ((exponent10 n <? 0)%Z
      && (Z.of_N (mantissa n) * 2 ^ 1075 <=? 10 ^ (- exponent10 n))%Z).

(** [ToBoolean] on the result of a property read: [None] is [undefined]. *)
Definition ToBoolean (v : option json) : bool :=
  match v with
  | None => false
  | Some JNull => false
  | Some (JBool b) => b
  | Some (JNumber n) => negb (rounds_to_zero n)
  | Some (JString s) => match s with [] => false | _ :: _ => true end
  | Some (JArray _) => true
  | Some (JObject _) => true
  end.

(** The last binding of a key wins, as when [JSON.parse] defines the
    properties of an object in source order. *)
Fixpoint lookup_member (k : jsstring) (ms : list (jsstring * json))
  : option json :=
  match ms with
  | [] => None
  | (k', v) :: rest =>
      match lookup_member k rest with
      | Some v' => Some v'
      | None => if jsstring_eqb k k' then Some v else None
      end
  end.

(** *** Serialisation *)

Definition hex_digit (n : N) : code_unit :=
  if n <? 10 then 48 + n else 87 + n.

(** [UnicodeEscape]: a backslash, [u] and four lower-case hex digits. *)
Definition UnicodeEscape (c : code_unit) : jsstring :=
  [92; 117; hex_digit ((c / 4096) mod 16); hex_digit ((c / 256) mod 16);
   hex_digit ((c / 16) mod 16); hex_digit (c mod 16)].

Definition is_leading_surrogate (c : code_unit) : bool :=
  (55296 <=? c) && (c <=? 56319).
Definition is_trailing_surrogate (c : code_unit) : bool :=
  (56320 <=? c) && (c <=? 57343).

(** One code unit that is not half of a surrogate pair. *)
Definition quote_unit (c : code_unit) : jsstring :=
  if c =? 8 then [92; 98]
  else if c =? 9 then [92; 116]
  else if c =? 10 then [92; 110]
  else if c =? 12 then [92; 102]
  else if c =? 13 then [92; 114]
  else if c =? 34 then [92; 34]
  else if c =? 92 then [92; 92]
  else if (c <? 32) || is_leading_surrogate c || is_trailing_surrogate c
  then UnicodeEscape c
  else [c].

(** The body of [QuoteJSONString]: a well-formed surrogate pair is copied,
    a lone surrogate is escaped. *)
Fixpoint quote_units (s : jsstring) : jsstring :=
  match s with
  | [] => []
  | c :: t =>
      match t with
      | d :: t' =>
          if is_leading_surrogate c && is_trailing_surrogate d
          then c :: d :: quote_units t'
          else quote_unit c ++ quote_units t
      | [] => quote_unit c
      end
  end.

Definition QuoteJSONString (s : jsstring) : jsstring :=
  [34] ++ quote_units s ++ [34].

(** The closing step of [SerializeJSONObject] and [SerializeJSONArray]. *)
Definition wrap (opening closing : code_unit) (gap stepback indent : jsstring)
  (partial : list jsstring) : jsstring :=
  match partial with
  | [] => [opening; closing]
  | _ :: _ =>
      match gap with
      | [] => [opening] ++ join [44] partial ++ [closing]
      | _ :: _ =>
          [opening; 10] ++ indent ++ join ([44; 10] ++ indent) partial
          ++ [10] ++ stepback ++ [closing]
      end
  end.

Section Serialize.

(** [Number::toString] is the runtime's shortest round-trip printer; it is
    left as a parameter. *)
Variable Number_toString : number -> jsstring.

Fixpoint SerializeJSONProperty (gap indent : jsstring) (v : json)
  : jsstring :=
  match v with
  | JNull => js "null"
  | JBool true => js "true"
  | JBool false => js "false"
  | JNumber n => Number_toString n
  | JString s => QuoteJSONString s
  | JArray xs =>
      wrap 91 93 gap indent (indent ++ gap)
        (map (SerializeJSONProperty gap (indent ++ gap)) xs)
  | JObject ms =>
      wrap 123 125 gap indent (indent ++ gap)
        (map (fun kv =>
                let '(k, x) := kv in
                QuoteJSONString k ++ [58]
                ++ match gap with [] => [] | _ :: _ => [32] end
                ++ SerializeJSONProperty gap (indent ++ gap) x) ms)
  end.

(** [JSON.stringify(v)]. *)
Definition stringify (v : json) : jsstring :=
  SerializeJSONProperty [] [] v.

(** [JSON.stringify(v, null, 2)]. *)
Definition stringify_indent2 (v : json) : jsstring :=
  SerializeJSONProperty [32; 32] [] v.

End Serialize.

(** *** Parsing *)

(** JSON insignificant whitespace: tab, line feed, carriage return, space. *)
Definition is_json_ws (c : code_unit) : bool :=
  (c =? 9) || (c =? 10) || (c =? 13) || (c =? 32).

Fixpoint skip_ws (s : jsstring) : jsstring :=
  match s with
  | [] => []
  | c :: t => if is_json_ws c then skip_ws t else s
  end.

Definition hex_value (c : code_unit) : option N :=
  if (48 <=? c) && (c <=? 57) then Some (c - 48)
  else if (97 <=? c) && (c <=? 102) then Some (c - 87)
  else if (65 <=? c) && (c <=? 70) then Some (c - 55)
  else None.

Definition unescape (c : code_unit) : option code_unit :=
  if c =? 34 then Some 34
  else if c =? 92 then Some 92
  else if c =? 47 then Some 47
  else if c =? 98 then Some 8
  else if c =? 102 then Some 12
  else if c =? 110 then Some 10
  else if c =? 114 then Some 13
  else if c =? 116 then Some 9
  else None.

Definition consume {A B} (x : A) (r : option (list A * B))
  : option (list A * B) :=
  match r with
  | Some (xs, rest) => Some (x :: xs, rest)
  | None => None
  end.

(** The characters of a string literal, read after its opening quote up to
    and including the closing quote. *)
Fixpoint parse_string_chars (s : jsstring) : option (jsstring * jsstring) :=
  match s with
  | [] => None
  | c :: t =>
      if c =? 34 then Some ([], t)
      else if c =? 92 then
        match t with
        | [] => None
        | e :: t1 =>
            if e =? 117 then
              match t1 with
              | h1 :: h2 :: h3 :: h4 :: t2 =>
                  match hex_value h1, hex_value h2,
                        hex_value h3, hex_value h4 with
                  | Some a, Some b, Some c', Some d =>
                      consume (4096 * a + 256 * b + 16 * c' + d)
                        (parse_string_chars t2)
                  | _, _, _, _ => None
                  end
              | _ => None
              end
            else
              match unescape e with
              | Some x => consume x (parse_string_chars t1)
              | None => None
              end
        end
      else if c <? 32 then None
      else consume c (parse_string_chars t)
  end.

Definition is_digit (c : code_unit) : bool := (48 <=? c) && (c <=? 57).

(** The longest run of decimal digits at the head, as digit values. *)
Fixpoint digits (s : jsstring) : list N * jsstring :=
  match s with
  | [] => ([], [])
  | c :: t =>
      if is_digit c
      then let '(ds, rest) := digits t in ((c - 48) :: ds, rest)
      else ([], s)
  end.

Definition digits_value (ds : list N) : N :=
  fold_left (fun acc d => 10 * acc + d) ds 0.

Definition parse_fraction (s : jsstring) : option (list N * jsstring) :=
  match s with
  | c :: t =>
      if c =? 46 then
        match digits t with
        | ([], _) => None
        | (ds, rest) => Some (ds, rest)
        end
      else Some ([], s)
  | [] => Some ([], s)
  end.

Definition parse_exponent (s : jsstring) : option (Z * jsstring) :=
  match s with
  | c :: t =>
      if (c =? 101) || (c =? 69) then
        let '(sign, t1) :=
          match t with
          | x :: t' =>
              if x =? 45 then (true, t')
              else if x =? 43 then (false, t') else (false, t)
          | [] => (false, t)
          end in
        match digits t1 with
        | ([], _) => None
        | (ds, rest) =>
            let e := Z.of_N (digits_value ds) in
            Some (if sign then (- e)%Z else e, rest)
        end
      else Some (0%Z, s)
  | [] => Some (0%Z, s)
  end.

Definition parse_number (s : jsstring) : option (number * jsstring) :=
  let '(neg, s1) :=
    match s with
    | c :: t => if c =? 45 then (true, t) else (false, s)
    | [] => (false, s)
    end in
  match digits s1 with
  | ([], _) => None
  | (d :: ds, s2) =>
      if (d =? 0) && match ds with [] => false | _ :: _ => true end
      then None
      else
        match parse_fraction s2 with
        | None => None
        | Some (fs, s3) =>
            match parse_exponent s3 with
            | None => None
            | Some (e, s4) =>
                Some ({| negative := neg;
                         mantissa := digits_value ((d :: ds) ++ fs);
                         exponent10 := (e - Z.of_nat (List.length fs))%Z |},
                      s4)
            end
        end
  end.

Definition expect (c : code_unit) (s : jsstring) : option jsstring :=
  match s with
  | x :: t => if x =? c then Some t else None
  | [] => None
  end.

(** Recursive descent on the JSON grammar.  [fuel] bounds the depth of the
    call chain; every call in a chain has consumed at least one code unit,
    so [JSON_parse] supplies the length of the text plus one. *)
Fixpoint parse_value (fuel : nat) (s : jsstring) {struct fuel}
  : option (json * jsstring) :=
  match fuel with
  | O => None
  | S f =>
      match s with
      | [] => None
      | c :: t =>
          if c =? 123 then
            match expect 125 (skip_ws t) with
            | Some r => Some (JObject [], r)
            | None =>
                match parse_members f (skip_ws t) with
                | Some (ms, r) => Some (JObject ms, r)
                | None => None
                end
            end
          else if c =? 91 then
            match expect 93 (skip_ws t) with
            | Some r => Some (JArray [], r)
            | None =>
                match parse_elements f (skip_ws t) with
                | Some (xs, r) => Some (JArray xs, r)
                | None => None
                end
            end
          else if c =? 34 then
            match parse_string_chars t with
            | Some (str, r) => Some (JString str, r)
            | None => None
            end
          else if startsWith s (js "true") then Some (JBool true, skipn 4 s)
          else if startsWith s (js "false") then Some (JBool false, skipn 5 s)
          else if startsWith s (js "null") then Some (JNull, skipn 4 s)
          else
            match parse_number s with
            | Some (n, r) => Some (JNumber n, r)
            | None => None
            end
      end
  end

with parse_members (fuel : nat) (s : jsstring) {struct fuel}
  : option (list (jsstring * json) * jsstring) :=
  match fuel with
  | O => None
  | S f =>
      match expect 34 s with
      | None => None
      | Some t =>
          match parse_string_chars t with
          | None => None
          | Some (k, r) =>
              match expect 58 (skip_ws r) with
              | None => None
              | Some r1 =>
                  match parse_value f (skip_ws r1) with
                  | None => None
                  | Some (v, r2) =>
                      match expect 44 (skip_ws r2) with
                      | Some r3 => consume (k, v) (parse_members f (skip_ws r3))
                      | None =>
                          match expect 125 (skip_ws r2) with
                          | Some r3 => Some ([(k, v)], r3)
                          | None => None
                          end
                      end
                  end
              end
          end
      end
  end

with parse_elements (fuel : nat) (s : jsstring) {struct fuel}
  : option (list json * jsstring) :=
  match fuel with
  | O => None
  | S f =>
      match parse_value f s with
      | None => None
      | Some (v, r) =>
          match expect 44 (skip_ws r) with
          | Some r1 => consume v (parse_elements f (skip_ws r1))
          | None =>
              match expect 93 (skip_ws r) with
              | Some r1 => Some ([v], r1)
              | None => None
              end
          end
      end
  end.

(** [JSON.parse(text)]; [None] stands for the [SyntaxError] it throws. *)
Definition JSON_parse (text : jsstring) : option json :=
  match parse_value (S (List.length text)) (skip_ws text) with
  | Some (v, rest) =>
      match skip_ws rest with
      | [] => Some v
      | _ :: _ => None
      end
  | None => None
  end.

End JS.

Import JS.

(** ** Values shared by the agents *)

(** A thrown [Error] object; only its [message] is ever read. *)
Record Error := { message : jsstring }.

Inductive Completion (A : Type) :=
| Normal (value : A)
| Throw (error : Error).
Arguments Normal {A} value.
Arguments Throw {A} error.

Definition TypeError : Error := {| message := js "TypeError" |}.

(** An asynchronous call that has been started: how many milliseconds it
    takes to settle, and how it settles. *)
Record Promise (A : Type) := {
  settles_after : N;
  settlement : Completion A
}.
Arguments settles_after {A} p.
Arguments settlement {A} p.

(** [Promise.race([work, timeoutPromise])] where the timer rejects with
    [new Error(reason)] after [deadline] milliseconds: the work wins when it
    settles strictly before the timer fires.  The loser is not cancelled. *)
Definition race {A} (work : Promise A) (deadline : N) (reason : jsstring)
  : Promise A :=
  if settles_after work <? deadline then work
  else {| settles_after := deadline;
          settlement := Throw {| message := reason |} |}.

(** The [content] of a chat message: a string, or a list of content
    blocks. *)
Inductive Content :=
| Text (s : jsstring)
| Blocks (blocks : list json).

Record ToolCall := {
  tool_name : jsstring;
  tool_args : json;
  tool_call_id : jsstring
}.

Record AIReply := {
  reply_content : Content;
  tool_calls : list ToolCall
}.

Inductive Message :=
| HumanMessage (content : Content)
| AIMessage (reply : AIReply)
| ToolMessage (content : jsstring) (name : jsstring) (call_id : jsstring).

Definition content_of (m : Message) : Content :=
  match m with
  | HumanMessage c => c
  | AIMessage r => reply_content r
  | ToolMessage c _ _ => Text c
  end.

(** What a run does to the outside world, in order. *)
Inductive Event :=
| ModelInvoked (call : nat) (messages : list Message)
| ToolsRun (calls : list ToolCall)
| VectorSearched (query : jsstring) (n : number)
| WebSearchAgentCalled (query dbResults : jsstring)
| TavilyInvoked (query : jsstring)
| SynthesisInvoked (prompt : jsstring).

(** The external collaborators. *)
Record Env := {
  Number_toString : number -> jsstring;
  (** [vectorStore.similaritySearchWithScore(query, n)] (the embedding
      client is built in the same [try]); [None] is a null result. *)
  similaritySearchWithScore :
    jsstring -> number -> Completion (option (list json));
  (** the retrieval chat model with the tool bound: its reply at the
      [call]-th invocation of a run, on the given history *)
  chat_model : nat -> list Message -> Completion AIReply;
  (** the milliseconds that invocation takes to settle *)
  model_takes : nat -> list Message -> N;
  (** the milliseconds the tool node takes on the calls of one reply *)
  tools_take : list ToolCall -> N;
  (** the history the checkpointer holds for a thread *)
  checkpoint : jsstring -> list Message;
  (** the text of the tool message the prebuilt tool node answers with for
      a call it cannot run (unknown tool, arguments the schema rejects) *)
  tool_error : ToolCall -> jsstring;
  (** [new ChatAnthropic(..)] and [new TavilySearchResults(..)] at the head
      of [webSearchAgent] *)
  new_clients : Completion unit;
  (** [tavilyTool.invoke(searchQuery)] for the directive at a position *)
  tavily : nat -> jsstring -> Promise json;
  (** [model.invoke(prompt)] of the synthesis step, giving the reply's
      [content] *)
  synthesis : jsstring -> Promise Content
}.

Definition PASS_TO_WEB_AGENT : jsstring := js "PASS_TO_WEB_AGENT".
Definition NO_RESULTS_FOUND : jsstring := js "NO_RESULTS_FOUND".
Definition RECOMMENDATIONS : jsstring := js "RECOMMENDATIONS".

(** ** First agent: the event lookup *)

Module Lookup.

Section WithEnv.
Variable env : Env.

(** The [events_lookup] tool body. *)
Definition eventLookupTool (query : jsstring) (n : number) : jsstring :=
  match similaritySearchWithScore env query n with
  | Normal result =>
      match result with
      | None | Some [] =>
          stringify (Number_toString env)
            (JObject [(js "message", JString NO_RESULTS_FOUND)])
      | Some docs => stringify (Number_toString env) (JArray docs)
      end
  | Throw error =>
      stringify (Number_toString env)
        (JObject [(js "message", JString NO_RESULTS_FOUND);
                  (js "error", JString (message error))])
  end.

(** The tool's schema: [query] a string, [n] an optional number that
    defaults to 10. *)
Definition schema_parse (args : json) : option (jsstring * number) :=
  match args with
  | JObject ms =>
      match lookup_member (js "query") ms with
      | Some (JString q) =>
          match lookup_member (js "n") ms with
          | None =>
              Some (q, {| negative := false; mantissa := 10;
                          exponent10 := 0 |})
          | Some (JNumber n) => Some (q, n)
          | Some _ => None
          end
      | _ => None
      end
  | _ => None
  end.

(** The prebuilt tool node on one call: the tool is found by exact name;
    a call that cannot be run is answered by an error message, not by an
    exception. *)
Definition run_tool (call : ToolCall) : list Event * Message :=
  if jsstring_eqb (tool_name call) (js "events_lookup") then
    match schema_parse (tool_args call) with
    | Some (q, n) =>
        ([VectorSearched q n],
         ToolMessage (eventLookupTool q n) (tool_name call)
           (tool_call_id call))
    | None =>
        ([], ToolMessage (tool_error env call) (tool_name call)
               (tool_call_id call))
    end
  else ([], ToolMessage (tool_error env call) (tool_name call)
              (tool_call_id call)).

Fixpoint toolNode (calls : list ToolCall) : list Event * list Message :=
  match calls with
  | [] => ([], [])
  | c :: rest =>
      let '(e1, m) := run_tool c in
      let '(e2, ms) := toolNode rest in
      (e1 ++ e2, m :: ms)
  end.

Inductive Route := to_tools | to_end.

Definition last_tool_calls (messages : list Message) : list ToolCall :=
  match last (map Some messages) None with
  | Some (AIMessage r) => tool_calls r
  | _ => []
  end.

Definition shouldContinue (messages : list Message) : Route :=
  match last_tool_calls messages with
  | [] => to_end
  | _ :: _ => to_tools
  end.

(** [callModel]: the model is invoked on the rendered history; its reply
    is the update of the [messages] channel, an error is thrown on. *)
Definition callModel (call : nat) (messages : list Message)
  : Completion (list Message) :=
  match chat_model env call messages with
  | Normal result => Normal [AIMessage result]
  | Throw error => Throw error
  end.

Inductive Node := agent | tools.

Record GraphRun := {
  graph_trace : list Event;
  final_state : Completion (list Message)
}.

Definition after (evs : list Event) (r : GraphRun) : GraphRun :=
  {| graph_trace := evs ++ graph_trace r; final_state := final_state r |}.

Definition GraphRecursionError : Error :=
  {| message := js "Recursion limit reached without hitting a stop condition" |}.

(** The deadline of [app.invoke], in milliseconds, and the error the run
    ends with when it passes. *)
Definition invoke_timeout : N := 60000.

Definition TimeoutError : Error :=
  {| message := js "The operation was aborted due to timeout" |}.

(** The compiled graph [agent -> (tools -> agent)*] run by the graph
    library.  Each execution of a node is one step and [budget] is the
    number of steps the run may still take.  The run ends normally when,
    with a step still left, nothing remains to run; a run that has used its
    last step fails with [GraphRecursionError], also when that step was the
    model's final reply.  [elapsed] is the time since the invocation
    started: a node that has not settled when [invoke_timeout] is reached
    ends the run with [TimeoutError].  The reducer of the [messages]
    channel appends each node's update.  [call] counts the model
    invocations made so far. *)
Fixpoint run_steps (budget : nat) (node : Node) (call : nat) (elapsed : N)
  (messages : list Message) : GraphRun :=
  match budget with
  | O => {| graph_trace := []; final_state := Throw GraphRecursionError |}
  | S b =>
      match node with
      | agent =>
          if elapsed + model_takes env call messages <? invoke_timeout then
            match callModel call messages with
            | Throw e =>
                {| graph_trace := [ModelInvoked call messages];
                   final_state := Throw e |}
            | Normal update =>
                let messages' := messages ++ update in
                after [ModelInvoked call messages]
                  match shouldContinue messages' with
                  | to_tools =>
                      run_steps b tools (S call)
                        (elapsed + model_takes env call messages) messages'
                  | to_end =>
                      match b with
                      | O =>
                          {| graph_trace := [];
                             final_state := Throw GraphRecursionError |}
                      | S _ =>
                          {| graph_trace := [];
                             final_state := Normal messages' |}
                      end
                  end
            end
          else
            {| graph_trace := [ModelInvoked call messages];
               final_state := Throw TimeoutError |}
      | tools =>
          let '(evs, out) := toolNode (last_tool_calls messages) in
          if elapsed + tools_take env (last_tool_calls messages)
             <? invoke_timeout
          then
            after (ToolsRun (last_tool_calls messages) :: evs)
              (run_steps b agent call
                 (elapsed + tools_take env (last_tool_calls messages))
                 (messages ++ out))
          else
            {| graph_trace := ToolsRun (last_tool_calls messages) :: evs;
               final_state := Throw TimeoutError |}
      end
  end.

(** [app.invoke] under a step limit, with the clock at zero. *)
Definition run_graph (budget : nat) (node : Node) (call : nat)
  (messages : list Message) : GraphRun :=
  run_steps budget node call 0 messages.

Definition recursionLimit : nat := 15.

(** [eventLookupAgent(client, query, thread_id)]: the graph is invoked on
    the thread's history extended with the query; whatever is thrown
    inside, the step-limit error and the timeout of the invocation
    included, is answered by the no-results marker. *)
Definition eventLookupAgent (query thread_id : jsstring)
  : list Event * Content :=
  let run :=
    run_graph recursionLimit agent 0
      (checkpoint env thread_id ++ [HumanMessage (Text query)]) in
  (graph_trace run,
   match final_state run with
   | Normal messages =>
       match last (map Some messages) None with
       | Some m => content_of m
       | None => Text NO_RESULTS_FOUND
       end
   | Throw _ => Text NO_RESULTS_FOUND
   end).

End WithEnv.

End Lookup.

(** ** Second agent: web search and final recommendations *)

Module Web.

(** Deadlines, in milliseconds. *)
Definition search_timeout : N := 10000.
Definition processing_timeout : N := 15000.

Definition nonempty (s : jsstring) : bool :=
  match s with
  | [] => false
  | _ :: _ => true
  end.

(** [text.split('\n').map(line => line.trim()).filter(line => line.length > 0)] *)
Definition trimmed_lines (text : jsstring) : list jsstring :=
  filter nonempty (map trim (split text [10])).

(** [parsedQuery.searchSummary]: reading a property of [null] throws; on
    any other primitive, and on arrays, this name is not defined. *)
Definition read_searchSummary (parsedQuery : json)
  : Completion (option json) :=
  match parsedQuery with
  | JNull => Throw TypeError
  | JObject ms => Normal (lookup_member (js "searchSummary") ms)
  | _ => Normal None
  end.

(** The first [try] block of [webSearchAgent]: the list [searchQueries]. *)
Definition searchQueries (query : jsstring) : list jsstring :=
  match JSON_parse query with
  | None => [query]
  | Some parsedQuery =>
      match read_searchSummary parsedQuery with
      | Throw _ => [query]
      | Normal summary =>
          if ToBoolean summary then
            match summary with
            | Some (JString text) => trimmed_lines text
            | _ => [query]
            end
          else []
      end
  end.

Definition fallback (dbResults : jsstring) : jsstring :=
  RECOMMENDATIONS ++ [10]
  ++ js "I found these events but couldn't verify all details:" ++ [10]
  ++ dbResults.

Record WebRun := {
  web_trace : list Event;
  web_promise : Promise Content
}.

Section WithEnv.
Variable env : Env.

(** One turn of the search loop: the entry pushed on [searchResults] and
    the time the turn took. *)
Definition search_one (i : nat) (searchQuery : jsstring) : N * json :=
  let raced := race (tavily env i searchQuery) search_timeout
                 (js "Search timeout") in
  (settles_after raced,
   match settlement raced with
   | Normal result =>
       JObject [(js "query", JString searchQuery); (js "results", result)]
   | Throw error =>
       JObject [(js "query", JString searchQuery);
                (js "error", JString (message error))]
   end).

Fixpoint search_loop (i : nat) (queries : list jsstring)
  : list Event * N * list json :=
  match queries with
  | [] => ([], 0, [])
  | q :: rest =>
      let '(dt, entry) := search_one i q in
      let '(evs, t, entries) := search_loop (S i) rest in
      (TavilyInvoked q :: evs, dt + t, entry :: entries)
  end.

Definition resultsContext (query dbResults : jsstring)
  (searchResults : list json) : jsstring :=
  [10] ++ js "                Original Query: " ++ query
  ++ [10] ++ js "                Database Results: " ++ dbResults
  ++ [32; 10] ++ js "                Web Search Results: "
  ++ stringify_indent2 (Number_toString env) (JArray searchResults)
  ++ [10] ++ js "                ".

Definition synthesis_prompt (query dbResults : jsstring)
  (searchResults : list json) : jsstring :=
  js "You are an event recommendation assistant. Based on these search results, provide a concise summary of verified events and venues. Include social media links and website URLs where available. Start your response with RECOMMENDATIONS:"
  ++ [10; 10] ++ resultsContext query dbResults searchResults.

(** [processPromise]: it resolves with the reply's content, or with the
    fallback when the model call throws; it never rejects. *)
Definition processPromise (prompt dbResults : jsstring) : Promise Content :=
  let p := synthesis env prompt in
  {| settles_after := settles_after p;
     settlement :=
       match settlement p with
       | Normal content => Normal content
       | Throw _ => Normal (Text (fallback dbResults))
       end |}.

(** [webSearchAgent(query, dbResults, thread_id)].  The two clients are
    built outside the [try]; inside it every await is caught where it is
    made, so the promise rejects only when a constructor throws. *)
Definition webSearchAgent (query dbResults thread_id : jsstring) : WebRun :=
  match new_clients env with
  | Throw e =>
      {| web_trace := [];
         web_promise := {| settles_after := 0; settlement := Throw e |} |}
  | Normal _ =>
      let '(evs, t, searchResults) := search_loop 0 (searchQueries query) in
      let prompt := synthesis_prompt query dbResults searchResults in
      let raced := race (processPromise prompt dbResults) processing_timeout
                     (js "Processing timeout") in
      {| web_trace := evs ++ [SynthesisInvoked prompt];
         web_promise :=
           {| settles_after := t + settles_after raced;
              settlement :=
                match settlement raced with
                | Normal content => Normal content
                | Throw _ => Normal (Text (fallback dbResults))
                end |} |}
  end.

End WithEnv.

End Web.

(** ** The controller *)

Module Controller.

Import Web.

Definition web_search_process_timeout : N := 45000.

Definition unverified (summary : jsstring) : jsstring :=
  RECOMMENDATIONS ++ [10]
  ++ js "I found some events but couldn't verify all details:" ++ [10]
  ++ summary.

Definition nothing_found : jsstring :=
  RECOMMENDATIONS ++ [10]
  ++ js "I couldn't find any specific events in our database or through web search. Please try a different city or check back later.".

Definition apology : jsstring :=
  js "I apologize, but I encountered an error while processing your request. Please try again or rephrase your query.".

(** The object [enhancedQuery] handed to the web agent as JSON text. *)
Definition enhancedQuery (query searchSummary dbSummary : jsstring) : json :=
  JObject [(js "originalQuery", JString query);
           (js "searchSummary", JString searchSummary);
           (js "dbResults", JString dbSummary)].

Record Run := {
  trace : list Event;
  outcome : Completion Content
}.

Section WithEnv.
Variable env : Env.

(** The web stage as the controller runs it: the agent is called, raced
    against the stage deadline, and a rejection of either is answered by
    [otherwise]. *)
Definition web_stage (query dbResults thread_id otherwise : jsstring)
  : Run :=
  let w := webSearchAgent env query dbResults thread_id in
  {| trace := WebSearchAgentCalled query dbResults :: web_trace w;
     outcome :=
       match settlement (race (web_promise w) web_search_process_timeout
                           (js "Web search process timeout")) with
       | Normal finalResults => Normal finalResults
       | Throw _ => Normal (Text otherwise)
       end |}.

(** The body of the outer [try] of [callAgent] once the lookup agent has
    been awaited. *)
Definition callAgent_try (awaited : Completion Content)
  (query thread_id : jsstring) : Run :=
  match awaited with
  | Throw e => {| trace := []; outcome := Throw e |}
  | Normal dbResults =>
      match dbResults with
      | Text s =>
          if nonempty s then
            if includes s PASS_TO_WEB_AGENT then
              match split s PASS_TO_WEB_AGENT with
              | before :: next :: _ =>
                  web_stage
                    (stringify (Number_toString env)
                       (enhancedQuery query (trim next) (trim before)))
                    s thread_id (unverified before)
              | _ => {| trace := []; outcome := Throw TypeError |}
              end
            else if includes s NO_RESULTS_FOUND then
              web_stage query (js "No database results found.") thread_id
                nothing_found
            else {| trace := []; outcome := Normal dbResults |}
          else {| trace := []; outcome := Normal dbResults |}
      | Blocks _ => {| trace := []; outcome := Normal dbResults |}
      end
  end.

(** [callAgent] from the point where the lookup agent's promise settles:
    the outer [catch] turns anything thrown into the apology. *)
Definition callAgent_from (awaited : Completion Content)
  (query thread_id : jsstring) : Run :=
  let r := callAgent_try awaited query thread_id in
  {| trace := trace r;
     outcome :=
       match outcome r with
       | Normal v => Normal v
       | Throw _ => Normal (Text apology)
       end |}.

(** [callAgent(client, query, thread_id)]. *)
Definition callAgent (query thread_id : jsstring) : Run :=
  let '(evs, dbResults) := Lookup.eventLookupAgent env query thread_id in
  let r := callAgent_from (Normal dbResults) query thread_id in
  {| trace := evs ++ trace r; outcome := outcome r |}.

End WithEnv.

End Controller.

(** ** Reading the handoff and the traces *)

(** The text in front of the leftmost occurrence of a separator (the whole
    text when there is none) and the text behind it. *)
Definition text_before (s sep : jsstring) : jsstring :=
  match indexOf s sep with
  | Some i => firstn i s
  | None => s
  end.

Definition text_after (s sep : jsstring) : jsstring :=
  match indexOf s sep with
  | Some i => skipn (i + List.length sep) s
  | None => []
  end.

(** The web searches a trace issues, in order. *)
Fixpoint searches_issued (tr : list Event) : list jsstring :=
  match tr with
  | [] => []
  | TavilyInvoked q :: rest => q :: searches_issued rest
  | _ :: rest => searches_issued rest
  end.

(** The calls of the verification agent in a trace. *)
Fixpoint web_agent_calls (tr : list Event) : list (jsstring * jsstring) :=
  match tr with
  | [] => []
  | WebSearchAgentCalled q d :: rest => (q, d) :: web_agent_calls rest
  | _ :: rest => web_agent_calls rest
  end.

(** The prompts given to the synthesis model in a trace. *)
Fixpoint synthesis_prompts (tr : list Event) : list jsstring :=
  match tr with
  | [] => []
  | SynthesisInvoked p :: rest => p :: synthesis_prompts rest
  | _ :: rest => synthesis_prompts rest
  end.

Fixpoint model_invocations (tr : list Event) : nat :=
  match tr with
  | [] => O
  | ModelInvoked _ _ :: rest => S (model_invocations rest)
  | _ :: rest => model_invocations rest
  end.

Fixpoint tool_rounds (tr : list Event) : nat :=
  match tr with
  | [] => O
  | ToolsRun _ :: rest => S (tool_rounds rest)
  | _ :: rest => tool_rounds rest
  end.

(** A web search that contributes an error entry: it rejects, or it has not
    settled when the per-query timer fires. *)
Definition search_fails (env : Env) (i : nat) (q : jsstring) : bool :=
  negb (settles_after (tavily env i q) <? Web.search_timeout)
  || match settlement (tavily env i q) with
     | Normal _ => false
     | Throw _ => true
     end.

Fixpoint all_searches_fail (env : Env) (i : nat) (qs : list jsstring) : bool :=
  match qs with
  | [] => true
  | q :: rest => search_fails env i q && all_searches_fail env (S i) rest
  end.

Definition is_error_entry (entry : json) : bool :=
  match entry with
  | JObject [(k1, JString _); (k2, JString _)] =>
      jsstring_eqb k1 (js "query") && jsstring_eqb k2 (js "error")
  | _ => false
  end.

Import Lookup Web Controller.

(** ** Auxiliary notions used by the proofs *)

Definition all_white (s : jsstring) : bool := forallb is_white_space s.

(** Put a code unit in front of the first piece. *)
Definition cons_head (c : code_unit) (ls : list jsstring) : list jsstring :=
  match ls with
  | p :: ps => (c :: p) :: ps
  | [] => [[c]]
  end.

(** Put a code unit behind the last piece. *)
Fixpoint snoc_last (c : code_unit) (ls : list jsstring) : list jsstring :=
  match ls with
  | [] => []
  | [p] => [p ++ [c]]
  | p :: ps => p :: snoc_last c ps
  end.

(** An object all of whose members are strings, and the text of one of its
    members in the compact serialisation. *)
Definition flat_members (fields : list (jsstring * jsstring))
  : list (jsstring * json) :=
  map (fun kv => (fst kv, JString (snd kv))) fields.

Definition member_text (kv : jsstring * jsstring) : jsstring :=
  QuoteJSONString (fst kv) ++ [58] ++ QuoteJSONString (snd kv).

(** Events of the retrieval stage. *)
Definition retrieval_event (e : Event) : bool :=
  match e with
  | ModelInvoked _ _ | ToolsRun _ | VectorSearched _ _ => true
  | _ => false
  end.

(** Every model invocation and every round of tool execution settles in
    less than [m] milliseconds. *)
Definition steps_take_less (env : Env) (m : N) : Prop :=
  (forall call messages, model_takes env call messages < m)
  /\ (forall calls, tools_take env calls < m).

(** A model that asks for a tool on every reply. *)
Definition always_requests_tools (env : Env) : Prop :=
  forall call messages,
    exists reply, chat_model env call messages = Normal reply
                  /\ tool_calls reply <> [].

(** ** Concrete collaborators for the worked examples *)

(** An environment whose retrieval model always gives [reply], whose vector
    store finds nothing, whose web searches all settle as [search] and whose
    synthesis call settles as [synth]. *)
Definition sample_env (reply : AIReply) (search : Promise json)
  (synth : Promise Content) : Env :=
  {| Number_toString := fun _ => js "0";
     similaritySearchWithScore := fun _ _ => Normal (Some []);
     chat_model := fun _ _ => Normal reply;
     model_takes := fun _ _ => 0;
     tools_take := fun _ => 0;
     checkpoint := fun _ => [];
     tool_error := fun _ => js "Error: tool call failed";
     new_clients := Normal tt;
     tavily := fun _ _ => search;
     synthesis := fun _ => synth |}.

Definition plain_reply (text : jsstring) : AIReply :=
  {| reply_content := Text text; tool_calls := [] |}.

Definition lookup_call : ToolCall :=
  {| tool_name := js "events_lookup";
     tool_args := JObject [(js "query", JString (js "brunch"))];
     tool_call_id := js "call_1" |}.

(** A reply that asks for the lookup tool again. *)
Definition greedy_reply : AIReply :=
  {| reply_content := Text []; tool_calls := [lookup_call] |}.

Definition search_down : Promise json :=
  {| settles_after := 120;
     settlement := Throw {| message := js "fetch failed" |} |}.

Definition search_slow : Promise json :=
  {| settles_after := 30000; settlement := Normal (JString (js "late")) |}.

Definition synth_says (text : jsstring) : Promise Content :=
  {| settles_after := 900; settlement := Normal (Text text) |}.

Definition synth_down : Promise Content :=
  {| settles_after := 900;
     settlement := Throw {| message := js "overloaded" |} |}.

(** A vector store that throws. *)
Definition env_store_down (msg : jsstring) : Env :=
  {| Number_toString := fun _ => js "0";
     similaritySearchWithScore := fun _ _ => Throw {| message := msg |};
     chat_model := fun _ _ => Normal (plain_reply []);
     model_takes := fun _ _ => 0;
     tools_take := fun _ => 0;
     checkpoint := fun _ => [];
     tool_error := fun _ => js "Error: tool call failed";
     new_clients := Normal tt;
     tavily := fun _ _ => search_down;
     synthesis := fun _ => synth_down |}.

Definition ten : number :=
  {| negative := false; mantissa := 10; exponent10 := 0 |}.

(** Retrieval outputs used in the examples. *)
Definition one_marker_text : jsstring :=
  js "Sunday Jazz Brunch @jazzbrunchatl" ++ [10] ++ PASS_TO_WEB_AGENT
  ++ [10] ++ js "  Sunday Jazz Brunch Atlanta  " ++ [10; 10]
  ++ js "Apt 4B lounge" ++ [10].

Definition two_marker_text : jsstring :=
  js "Venue A" ++ [10] ++ PASS_TO_WEB_AGENT ++ [10] ++ js "first query"
  ++ [10] ++ PASS_TO_WEB_AGENT ++ [10] ++ js "second query".

Definition empty_block_text : jsstring :=
  js "Venue A @venue_a" ++ [10] ++ PASS_TO_WEB_AGENT ++ [10; 32; 32; 10].

(** Environments and inputs of the worked examples. *)
Definition env_forward_once : Env :=
  sample_env (plain_reply one_marker_text) search_down
    (synth_says (js "RECOMMENDATIONS: Sunday Jazz Brunch is on this week.")).

Definition env_forward_twice : Env :=
  sample_env (plain_reply two_marker_text) search_down
    (synth_says (js "RECOMMENDATIONS: Venue A is open.")).

Definition env_empty_block : Env :=
  sample_env (plain_reply empty_block_text) search_down
    (synth_says (js "RECOMMENDATIONS: Venue A is open.")).

Definition env_asks_city : Env :=
  sample_env (plain_reply (js "Which city are you in?")) search_down
    synth_down.

Definition env_greedy : Env :=
  sample_env greedy_reply search_down synth_down.

(** The greedy model again, each of its replies taking ten seconds. *)
Definition env_greedy_slow : Env :=
  {| Number_toString := Number_toString env_greedy;
     similaritySearchWithScore := similaritySearchWithScore env_greedy;
     chat_model := chat_model env_greedy;
     model_takes := fun _ _ => 10000;
     tools_take := tools_take env_greedy;
     checkpoint := checkpoint env_greedy;
     tool_error := tool_error env_greedy;
     new_clients := new_clients env_greedy;
     tavily := tavily env_greedy;
     synthesis := synthesis env_greedy |}.

Definition env_unmarked_synthesis : Env :=
  sample_env (plain_reply NO_RESULTS_FOUND) search_down
    (synth_says (js "Sorry, none of these could be verified.")).

Definition env_all_down : Env :=
  sample_env (plain_reply NO_RESULTS_FOUND) search_slow synth_down.

Definition env_store_empty : Env :=
  sample_env (plain_reply []) search_down synth_down.

Definition brunch_query : jsstring := js "brunch in Atlanta this weekend".
Definition thread : jsstring := js "1730000000000".

(** ** The HTTP layer (index.ts) *)

Module Server.

(** What a handler sends: [res.status(..).json(..)], status 200 when it is
    not set. *)
Record Response := { status : N; body : json }.

(** A message content as [res.json] serialises it. *)
Definition content_json (c : Content) : json :=
  match c with
  | Text s => JString s
  | Blocks blocks => JArray blocks
  end.

(** [Date.now().toString()]: the clock reading, an integer number of
    milliseconds, in decimal (a time value stays far below 10^21, where
    the decimal form of a number gets an exponent). *)
Definition thread_of_clock (now : N) : jsstring :=
  js (NilEmpty.string_of_uint (N.to_uint now)).

Definition internal_server_error : Response :=
  {| status := 500;
     body := JObject [(js "error", JString (js "Internal server error"))] |}.

Section WithEnv.
Variable env : Env.

(** [POST /chat] with a string [message] in the body, at clock reading
    [now]. *)
Definition post_chat (now : N) (initialMessage : jsstring)
  : list Event * Response :=
  let threadId := thread_of_clock now in
  let run := callAgent env initialMessage threadId in
  (trace run,
   match outcome run with
   | Normal response =>
       {| status := 200;
          body := JObject [(js "threadId", JString threadId);
                           (js "response", content_json response)] |}
   | Throw _ => internal_server_error
   end).

(** [POST /chat/:threadId] with a string [message] in the body. *)
Definition post_chat_thread (threadId message : jsstring)
  : list Event * Response :=
  let run := callAgent env message threadId in
  (trace run,
   match outcome run with
   | Normal response =>
       {| status := 200;
          body := JObject [(js "response", content_json response)] |}
   | Throw _ => internal_server_error
   end).

End WithEnv.

End Server.

(** ** The seeding script (seed-database-events.ts) *)

Module Seed.

(** A row as the CSV reader emits it: header and cell, in column order. *)
Definition Row := list (jsstring * jsstring).

(** [data.column]: the cell under a header, [None] ([undefined]) when the
    row has no such column; of two columns with one header the later one
    is kept. *)
Fixpoint cell (row : Row) (header : jsstring) : option jsstring :=
  match row with
  | [] => None
  | (h, c) :: rest =>
      match cell rest header with
      | Some c' => Some c'
      | None => if jsstring_eqb header h then Some c else None
      end
  end.

(** An event as the script holds it; a field is [None] when the row had no
    such column. *)
Record Event := {
  name : option jsstring;
  type : option jsstring;
  date : option jsstring;
  time : option jsstring;
  location : option jsstring;
  instagram : option jsstring;
  city : option jsstring;
  notes : option jsstring;
  similarTo : option jsstring
}.

(** The ['data'] callback of [parseCSVFile]. *)
Definition event_of_row (data : Row) : Event :=
  {| name := cell data (js "name");
     type := cell data (js "type");
     date := cell data (js "date");
     time := cell data (js "time");
     location := cell data (js "location");
     instagram := cell data (js "instagram");
     city := cell data (js "city");
     notes := cell data (js "notes");
     similarTo := cell data (js "similarTo") |}.

(** [parseCSVFile]: the reader gives the rows or fails. *)
Definition parseCSVFile (rows : Completion (list Row))
  : Completion (list Event) :=
  match rows with
  | Normal data => Normal (map event_of_row data)
  | Throw err => Throw err
  end.

(** A field inside a template literal. *)
Definition shown (field : option jsstring) : jsstring :=
  match field with
  | Some s => s
  | None => js "undefined"
  end.

Definition createEventSummary (event : Event) : jsstring :=
  js "Name: " ++ shown (name event)
  ++ js ". Type: " ++ shown (type event)
  ++ js ". Date: " ++ shown (date event)
  ++ js ". Time: " ++ shown (time event)
  ++ js ". Location: " ++ shown (location event)
  ++ js ". Instagram: " ++ shown (instagram event)
  ++ js ". City: " ++ shown (city event)
  ++ js ". Notes: " ++ shown (notes event)
  ++ js ". Similar To " ++ shown (similarTo event).

Record Document := {
  pageContent : jsstring;
  metadata : Event
}.

Definition document_of (record : Event) : Document :=
  {| pageContent := createEventSummary record; metadata := record |}.

(** The database client and the vector store, as the script uses them. *)
Record Mongo := {
  connect : Completion unit;
  ping : Completion unit;
  (** [MongoDBAtlasVectorSearch.fromDocuments([record], ..)] for the record
      at a position (the embedding client is built in the same call) *)
  fromDocuments : nat -> Document -> Completion unit;
  close : Completion unit
}.

Inductive Step :=
| Connected
| Pinged
| Stored (record : Document)
| CloseCalled.

(** The [for] loop over the records: it ends at the first insert that
    throws. *)
Fixpoint store_from (db : Mongo) (i : nat) (records : list Document)
  : list Step * Completion unit :=
  match records with
  | [] => ([], Normal tt)
  | record :: rest =>
      match fromDocuments db i record with
      | Normal _ =>
          let '(steps, r) := store_from db (S i) rest in
          (Stored record :: steps, r)
      | Throw error => ([], Throw error)
      end
  end.

(** The [try] block of [embedEventsWithVectorSearch]. *)
Definition embed_try (db : Mongo) (events : list Event)
  : list Step * Completion unit :=
  match connect db with
  | Throw error => ([], Throw error)
  | Normal _ =>
      match ping db with
      | Throw error => ([Connected], Throw error)
      | Normal _ =>
          let '(steps, r) := store_from db 0 (map document_of events) in
          (Connected :: Pinged :: steps, r)
      end
  end.

(** [embedEventsWithVectorSearch]: the [catch] logs and swallows what the
    [try] throws, the [finally] closes the client; only a failing close
    makes the function reject. *)
Definition embedEventsWithVectorSearch (db : Mongo) (events : list Event)
  : list Step * Completion unit :=
  (fst (embed_try db events) ++ [CloseCalled], close db).

(** [main]: nothing is thrown on. *)
Definition main (db : Mongo) (rows : Completion (list Row)) : list Step :=
  match parseCSVFile rows with
  | Throw _ => []
  | Normal events => fst (embedEventsWithVectorSearch db events)
  end.

Fixpoint stored (steps : list Step) : list Document :=
  match steps with
  | [] => []
  | Stored record :: rest => record :: stored rest
  | _ :: rest => stored rest
  end.

Fixpoint closes (steps : list Step) : nat :=
  match steps with
  | [] => O
  | CloseCalled :: rest => S (closes rest)
  | _ :: rest => closes rest
  end.

End Seed.
(** ** The single-agent version of the controller

    The repository keeps an earlier [callAgent] built on the same graph.
    Its lookup tool has no [try] and no empty-result case, and the function
    has no [catch]. *)

Module Legacy.

Section WithEnv.
Variable env : Env.

(** The text of the tool message the prebuilt tool node answers with when
    the tool itself throws. *)
Variable tool_failure : ToolCall -> Error -> jsstring.

(** The [events_lookup] tool body: whatever the search gives is
    serialised, whatever it throws is thrown on. *)
Definition eventLookupTool (query : jsstring) (n : number)
  : Completion jsstring :=
  match similaritySearchWithScore env query n with
  | Normal result =>
      Normal (stringify (Number_toString env)
                match result with
                | None => JNull
                | Some docs => JArray docs
                end)
  | Throw error => Throw error
  end.

Definition run_tool (call : ToolCall) : list Event * Message :=
  if jsstring_eqb (tool_name call) (js "events_lookup") then
    match schema_parse (tool_args call) with
    | Some (q, n) =>
        ([VectorSearched q n],
         ToolMessage
           match eventLookupTool q n with
           | Normal text => text
           | Throw error => tool_failure call error
           end
           (tool_name call) (tool_call_id call))
    | None =>
        ([], ToolMessage (tool_error env call) (tool_name call)
               (tool_call_id call))
    end
  else ([], ToolMessage (tool_error env call) (tool_name call)
              (tool_call_id call)).

Fixpoint toolNode (calls : list ToolCall) : list Event * list Message :=
  match calls with
  | [] => ([], [])
  | c :: rest =>
      let '(e1, m) := run_tool c in
      let '(e2, ms) := toolNode rest in
      (e1 ++ e2, m :: ms)
  end.

(** The same graph, with this version's tool node; the invocation of
    this version sets no timeout. *)
Fixpoint run_graph (budget : nat) (node : Node) (call : nat)
  (messages : list Message) : GraphRun :=
  match budget with
  | O => {| graph_trace := []; final_state := Throw GraphRecursionError |}
  | S b =>
      match node with
      | agent =>
          match callModel env call messages with
          | Throw e =>
              {| graph_trace := [ModelInvoked call messages];
                 final_state := Throw e |}
          | Normal update =>
              let messages' := messages ++ update in
              after [ModelInvoked call messages]
                match shouldContinue messages' with
                | to_tools => run_graph b tools (S call) messages'
                | to_end =>
                    match b with
                    | O =>
                        {| graph_trace := [];
                           final_state := Throw GraphRecursionError |}
                    | S _ =>
                        {| graph_trace := [];
                           final_state := Normal messages' |}
                    end
                end
          end
      | tools =>
          let '(evs, out) := toolNode (last_tool_calls messages) in
          after (ToolsRun (last_tool_calls messages) :: evs)
            (run_graph b agent call (messages ++ out))
      end
  end.

(** [callAgent(client, query, thread_id)] of this version: the content of
    the last message, or what the graph throws. *)
Definition callAgent (query thread_id : jsstring)
  : list Event * Completion Content :=
  let run :=
    run_graph recursionLimit agent 0
      (checkpoint env thread_id ++ [HumanMessage (Text query)]) in
  (graph_trace run,
   match final_state run with
   | Normal messages =>
       match last (map Some messages) None with
       | Some m => Normal (content_of m)
       | None => Throw TypeError
       end
   | Throw error => Throw error
   end).

End WithEnv.

End Legacy.

(** ** Reading the result batch *)

(** The [query] member of an entry of [searchResults]. *)
Definition entry_query (entry : json) : option jsstring :=
  match entry with
  | JObject ms =>
      match lookup_member (js "query") ms with
      | Some (JString q) => Some q
      | _ => None
      end
  | _ => None
  end.

(** An environment whose second web search is slow and whose other
    searches fail at once. *)
Definition env_second_slow : Env :=
  {| Number_toString := fun _ => js "0";
     similaritySearchWithScore := fun _ _ => Normal (Some []);
     chat_model := fun _ _ => Normal (plain_reply one_marker_text);
     model_takes := fun _ _ => 0;
     tools_take := fun _ => 0;
     checkpoint := fun _ => [];
     tool_error := fun _ => js "Error: tool call failed";
     new_clients := Normal tt;
     tavily := fun i _ => match i with
                          | 1%nat => search_slow
                          | _ => search_down
                          end;
     synthesis := fun _ => synth_down |}.

(** An environment whose clients cannot be built. *)
Definition env_no_clients : Env :=
  {| Number_toString := fun _ => js "0";
     similaritySearchWithScore := fun _ _ => Normal (Some []);
     chat_model := fun _ _ => Normal (plain_reply one_marker_text);
     model_takes := fun _ _ => 0;
     tools_take := fun _ => 0;
     checkpoint := fun _ => [];
     tool_error := fun _ => js "Error: tool call failed";
     new_clients := Throw {| message := js "Anthropic API key not found" |};
     tavily := fun _ _ => search_down;
     synthesis := fun _ => synth_down |}.

(** ** Reading responses and summaries *)

(** A member of a response body. *)
Definition response_member (k : jsstring) (r : Server.Response)
  : option json :=
  match Server.body r with
  | JObject ms => lookup_member k ms
  | _ => None
  end.

(** The columns the seeding script reads, with the label each one gets in
    the summary text. *)
Definition field_labels : list (jsstring * jsstring) :=
  [(js "name", js "Name: "); (js "type", js ". Type: ");
   (js "date", js ". Date: "); (js "time", js ". Time: ");
   (js "location", js ". Location: "); (js "instagram", js ". Instagram: ");
   (js "city", js ". City: "); (js "notes", js ". Notes: ");
   (js "similarTo", js ". Similar To ")].

(** A database whose insert at one position fails. *)
Definition db_fails_at (k : nat) : Seed.Mongo :=
  {| Seed.connect := Normal tt;
     Seed.ping := Normal tt;
     Seed.fromDocuments :=
       fun i _ => if Nat.eqb i k
                  then Throw {| message := js "rate limited" |}
                  else Normal tt;
     Seed.close := Normal tt |}.

Definition sample_rows : list Seed.Row :=
  [[(js "name", js "Sunday Jazz Brunch"); (js "city", js "Atlanta")];
   [(js "name", js "Day Party"); (js "city", js "Houston")];
   [(js "name", js "Supper Club"); (js "city", js "London")]].

(** A vector store that always finds one document, and a model that asks
    for the lookup once and then answers. *)
Definition env_store_full : Env :=
  {| Number_toString := fun _ => js "0";
     similaritySearchWithScore :=
       fun _ _ => Normal (Some [JString (js "Sunday Jazz Brunch")]);
     chat_model :=
       fun call _ =>
         Normal match call with
                | O => greedy_reply
                | S _ => plain_reply one_marker_text
                end;
     model_takes := fun _ _ => 0;
     tools_take := fun _ => 0;
     checkpoint := fun _ => [];
     tool_error := fun _ => js "Error: tool call failed";
     new_clients := Normal tt;
     tavily := fun _ _ => search_down;
     synthesis := fun _ => synth_down |}.

(** The store never fails and never comes back empty. *)
Definition store_always_finds (env : Env) : Prop :=
  forall query n,
    exists doc docs,
      similaritySearchWithScore env query n = Normal (Some (doc :: docs)).

Definition failure_text (call : ToolCall) (error : Error) : jsstring :=
  js "Error: " ++ message error.

Example split_two_markers :
  split (js "a--b--c") (js "--") = [js "a"; js "b"; js "c"].
Proof. reflexivity. Qed.

Example parse_null : JSON_parse (js "null") = Some JNull.
Proof. reflexivity. Qed.

Example parse_42 :
  JSON_parse (js "42")
  = Some (JNumber {| negative := false; mantissa := 42; exponent10 := 0 |}).
Proof. reflexivity. Qed.

(** * Properties of the string built-ins *)

Section StringFacts.

Lemma startsWith_app (p r : jsstring) : startsWith (p ++ r) p = true.
Proof.
  induction p as [|a p IH]; simpl.
  - destruct r; reflexivity.
  - rewrite N.eqb_refl. exact IH.
Qed.

Lemma startsWith_inv (s p : jsstring) :
  startsWith s p = true -> exists r, s = p ++ r.
Proof.
  revert s. induction p as [|a p IH]; intros s H.
  - exists s. reflexivity.
  - destruct s as [|b s]; simpl in H; [discriminate|].
    apply andb_true_iff in H. destruct H as [Hab Hs].
    apply N.eqb_eq in Hab. subst b.
    destruct (IH _ Hs) as [r ->]. exists r. reflexivity.
Qed.

Lemma includes_indexOf (s needle : jsstring) :
  includes s needle = true <-> exists i, indexOf s needle = Some i.
Proof.
  induction s as [|c s IH]; cbn [includes indexOf].
  - destruct (startsWith [] needle); cbn [orb].
    + split; [eexists; reflexivity | reflexivity].
    + split; [discriminate | intros [i Hi]; discriminate].
  - destruct (startsWith (c :: s) needle); cbn [orb].
    + split; [eexists; reflexivity | reflexivity].
    + rewrite IH. split; intros [i Hi].
      * rewrite Hi. eexists; reflexivity.
      * destruct (indexOf s needle); [eexists; reflexivity | discriminate].
Qed.

Lemma includes_false_indexOf (s needle : jsstring) :
  includes s needle = false -> indexOf s needle = None.
Proof.
  intros H. destruct (indexOf s needle) eqn:E; [|reflexivity].
  assert (includes s needle = true) by (apply includes_indexOf; eauto).
  congruence.
Qed.

(** [indexOf] gives the leftmost occurrence: the needle starts at the
    position found and at no earlier one. *)
Lemma indexOf_leftmost (s needle : jsstring) (i : nat) :
  indexOf s needle = Some i ->
  startsWith (skipn i s) needle = true
  /\ forall j, (j < i)%nat -> startsWith (skipn j s) needle = false.
Proof.
  revert i. induction s as [|c s IH]; intros i H; cbn [indexOf] in H.
  - destruct (startsWith [] needle) eqn:E; [|discriminate].
    injection H as <-. split; [exact E | intros j Hj; lia].
  - destruct (startsWith (c :: s) needle) eqn:E.
    + injection H as <-. split; [exact E | intros j Hj; lia].
    + destruct (indexOf s needle) as [k|] eqn:Ek; [|discriminate].
      injection H as <-. destruct (IH k eq_refl) as [Hk Hlt].
      split; [exact Hk|].
      intros [|j] Hj; [exact E|]. apply Hlt. lia.
Qed.

(** Skipping the rest of a matched separator. *)
Lemma split_from_skip (sep u rest : jsstring) :
  split_from sep (List.length u) (u ++ rest) = split_from sep O rest.
Proof.
  induction u as [|c u IH]; simpl; [reflexivity | exact IH].
Qed.

Lemma split_from_nonempty (sep : jsstring) (k : nat) (s : jsstring) :
  split_from sep k s <> [].
Proof.
  revert k. induction s as [|c s IH]; intros k; cbn [split_from];
    [discriminate|].
  destruct k; [|apply IH].
  destruct (startsWith (c :: s) sep); [discriminate|].
  destruct (split_from sep 0 s); discriminate.
Qed.

(** [split] cuts at the leftmost occurrence and goes on behind it. *)
Lemma split_from_first (a : code_unit) (sep' s : jsstring) (i : nat) :
  indexOf s (a :: sep') = Some i ->
  split_from (a :: sep') O s
  = firstn i s
    :: split_from (a :: sep') O (skipn (i + List.length (a :: sep')) s).
Proof.
  revert i. induction s as [|c s IH]; intros i H.
  - simpl in H. discriminate.
  - cbn [indexOf] in H. cbn [split_from].
    destruct (startsWith (c :: s) (a :: sep')) eqn:E.
    + injection H as <-.
      destruct (startsWith_inv _ _ E) as [r Hr].
      injection Hr as -> ->.
      cbn [firstn Nat.add List.length pred skipn].
      rewrite split_from_skip.
      f_equal. f_equal.
      change (S (List.length sep')) with (List.length (a :: sep')).
      change (a :: sep' ++ r) with ((a :: sep') ++ r).
      rewrite skipn_app, skipn_all, Nat.sub_diag. reflexivity.
    + destruct (indexOf s (a :: sep')) as [j|] eqn:Ej; [|discriminate].
      injection H as <-.
      rewrite (IH j eq_refl). reflexivity.
Qed.

Lemma split_from_none (a : code_unit) (sep' s : jsstring) :
  indexOf s (a :: sep') = None -> split_from (a :: sep') O s = [s].
Proof.
  induction s as [|c s IH]; intros H; [reflexivity|].
  cbn [indexOf] in H. cbn [split_from].
  destruct (startsWith (c :: s) (a :: sep')); [discriminate|].
  destruct (indexOf s (a :: sep')); [discriminate|].
  rewrite (IH eq_refl). reflexivity.
Qed.

Lemma split_head (a : code_unit) (sep' s : jsstring) :
  exists more, split s (a :: sep') = text_before s (a :: sep') :: more.
Proof.
  unfold split, text_before.
  destruct (indexOf s (a :: sep')) as [i|] eqn:E.
  - rewrite (split_from_first _ _ _ _ E). eauto.
  - rewrite (split_from_none _ _ _ E). eauto.
Qed.

Lemma split_at_first (a : code_unit) (sep' s : jsstring) :
  includes s (a :: sep') = true ->
  exists more,
    split s (a :: sep')
    = text_before s (a :: sep')
      :: text_before (text_after s (a :: sep')) (a :: sep') :: more.
Proof.
  intros H. apply includes_indexOf in H. destruct H as [i Hi].
  unfold split at 1. rewrite (split_from_first _ _ _ _ Hi).
  destruct (split_head a sep' (skipn (i + List.length (a :: sep')) s))
    as [more Hm].
  unfold split in Hm. rewrite Hm.
  unfold text_before at 2, text_after. rewrite Hi.
  exists more. reflexivity.
Qed.

(** The text is the part before, the separator, and the part after. *)
Lemma text_before_after (s sep : jsstring) :
  includes s sep = true ->
  s = text_before s sep ++ sep ++ text_after s sep.
Proof.
  intros H. apply includes_indexOf in H. destruct H as [i Hi].
  unfold text_before, text_after. rewrite Hi.
  revert i Hi. induction s as [|c s IH]; intros i Hi.
  - cbn [indexOf] in Hi. destruct (startsWith [] sep) eqn:E; [|discriminate].
    injection Hi as <-. destruct sep; [reflexivity | simpl in E; discriminate].
  - cbn [indexOf] in Hi.
    destruct (startsWith (c :: s) sep) eqn:E.
    + injection Hi as <-. destruct (startsWith_inv _ _ E) as [r Hr].
      rewrite Hr at 1. cbn [firstn Nat.add app]. rewrite Hr.
      rewrite skipn_app, skipn_all, Nat.sub_diag. reflexivity.
    + destruct (indexOf s sep) as [j|] eqn:Ej; [|discriminate].
      injection Hi as <-. cbn [firstn Nat.add skipn app].
      f_equal. apply IH. reflexivity.
Qed.

End StringFacts.

(** * Properties of [trim] and of the trimmed lines *)

Section TrimFacts.

Lemma trimStart_all_white (s : jsstring) :
  all_white s = true -> trimStart s = [].
Proof.
  induction s as [|c s IH]; cbn; [reflexivity|].
  intros H. apply andb_true_iff in H. destruct H as [Hc Hs].
  rewrite Hc. exact (IH Hs).
Qed.

Lemma trimStart_snoc (s : jsstring) (c : code_unit) :
  trimStart (s ++ [c])
  = if all_white s
    then (if is_white_space c then [] else [c])
    else trimStart s ++ [c].
Proof.
  induction s as [|x s IH]; cbn [app trimStart all_white forallb].
  - reflexivity.
  - destruct (is_white_space x); cbn [andb]; [exact IH | reflexivity].
Qed.

Lemma trimEnd_snoc_white (s : jsstring) (c : code_unit) :
  is_white_space c = true -> trimEnd (s ++ [c]) = trimEnd s.
Proof.
  intros Hc. unfold trimEnd. rewrite rev_app_distr. cbn [rev app trimStart].
  rewrite Hc. reflexivity.
Qed.

Lemma trim_cons_white (c : code_unit) (s : jsstring) :
  is_white_space c = true -> trim (c :: s) = trim s.
Proof. intros Hc. unfold trim. cbn [trimStart]. rewrite Hc. reflexivity. Qed.

Lemma trim_snoc_white (s : jsstring) (c : code_unit) :
  is_white_space c = true -> trim (s ++ [c]) = trim s.
Proof.
  intros Hc. unfold trim. rewrite trimStart_snoc, Hc.
  destruct (all_white s) eqn:E.
  - rewrite (trimStart_all_white _ E). reflexivity.
  - apply trimEnd_snoc_white. exact Hc.
Qed.

Lemma trim_all_white (s : jsstring) : all_white s = true -> trim s = [].
Proof. intros H. unfold trim. rewrite (trimStart_all_white _ H). reflexivity. Qed.

(** A string that starts with a visible code unit keeps it under [trim]. *)
Lemma trimEnd_cons_visible (c : code_unit) (s : jsstring) :
  is_white_space c = false -> trimEnd (c :: s) <> [].
Proof.
  intros Hc. unfold trimEnd. cbn [rev]. rewrite trimStart_snoc, Hc.
  destruct (all_white (rev s)); [discriminate|].
  rewrite rev_app_distr. discriminate.
Qed.

Lemma trim_nil_all_white (s : jsstring) : trim s = [] -> all_white s = true.
Proof.
  induction s as [|c s IH]; [reflexivity|].
  unfold trim. cbn [trimStart all_white forallb].
  destruct (is_white_space c) eqn:Hc.
  - exact IH.
  - intros H. exfalso. exact (trimEnd_cons_visible c s Hc H).
Qed.

(** Lines: [split] on the line feed. *)
Lemma lines_cons (c : code_unit) (s : jsstring) :
  split (c :: s) [10]
  = if 10 =? c then [] :: split s [10] else cons_head c (split s [10]).
Proof.
  unfold split. cbn [split_from startsWith List.length pred].
  destruct (10 =? c); cbn [andb].
  - destruct s; reflexivity.
  - reflexivity.
Qed.

Lemma lines_nonempty (s : jsstring) : split s [10] <> [].
Proof. apply split_from_nonempty. Qed.

Lemma snoc_last_cons_head (c x : code_unit) (ls : list jsstring) :
  ls <> [] -> snoc_last c (cons_head x ls) = cons_head x (snoc_last c ls).
Proof.
  destruct ls as [|p [|q ps]]; intros H; [congruence| reflexivity | reflexivity].
Qed.

Lemma lines_snoc_newline (s : jsstring) :
  split (s ++ [10]) [10] = split s [10] ++ [[]].
Proof.
  induction s as [|x s IH]; [reflexivity|].
  cbn [app]. rewrite !lines_cons, IH.
  destruct (10 =? x); [reflexivity|].
  destruct (split s [10]) eqn:E; [exfalso; exact (lines_nonempty _ E)|].
  reflexivity.
Qed.

Lemma lines_snoc_other (s : jsstring) (c : code_unit) :
  (10 =? c) = false -> split (s ++ [c]) [10] = snoc_last c (split s [10]).
Proof.
  intros Hc. induction s as [|x s IH].
  - cbn [app]. rewrite lines_cons, Hc. reflexivity.
  - cbn [app]. rewrite !lines_cons, IH.
    destruct (10 =? x).
    + destruct (split s [10]) eqn:E; [exfalso; exact (lines_nonempty _ E)|].
      reflexivity.
    + symmetry. apply snoc_last_cons_head. apply lines_nonempty.
Qed.

Lemma trimmed_snoc_last (c : code_unit) (ls : list jsstring) :
  is_white_space c = true ->
  filter nonempty (map trim (snoc_last c ls)) = filter nonempty (map trim ls).
Proof.
  intros Hc. induction ls as [|p ps IH]; [reflexivity|].
  destruct ps as [|q ps].
  - cbn [snoc_last map filter]. rewrite (trim_snoc_white _ _ Hc). reflexivity.
  - change (snoc_last c (p :: q :: ps)) with (p :: snoc_last c (q :: ps)).
    cbn [map filter] in *. rewrite IH. reflexivity.
Qed.

Lemma white_newline : is_white_space 10 = true.
Proof. reflexivity. Qed.

Lemma trimmed_lines_cons_white (c : code_unit) (s : jsstring) :
  is_white_space c = true -> trimmed_lines (c :: s) = trimmed_lines s.
Proof.
  intros Hc. unfold trimmed_lines. rewrite lines_cons.
  destruct (10 =? c).
  - reflexivity.
  - destruct (split s [10]) eqn:E; [exfalso; exact (lines_nonempty _ E)|].
    cbn [cons_head map filter]. rewrite (trim_cons_white _ _ Hc). reflexivity.
Qed.

Lemma trimmed_lines_snoc_white (s : jsstring) (c : code_unit) :
  is_white_space c = true -> trimmed_lines (s ++ [c]) = trimmed_lines s.
Proof.
  intros Hc. unfold trimmed_lines.
  destruct (10 =? c) eqn:E.
  - apply N.eqb_eq in E. subst c.
    rewrite lines_snoc_newline, map_app, filter_app.
    cbn. apply app_nil_r.
  - rewrite (lines_snoc_other _ _ E). apply trimmed_snoc_last. exact Hc.
Qed.

Lemma trimmed_lines_trimStart (s : jsstring) :
  trimmed_lines (trimStart s) = trimmed_lines s.
Proof.
  induction s as [|c s IH]; [reflexivity|].
  cbn [trimStart]. destruct (is_white_space c) eqn:Hc; [|reflexivity].
  rewrite IH. symmetry. apply trimmed_lines_cons_white. exact Hc.
Qed.

Lemma trimmed_lines_trimEnd (s : jsstring) :
  trimmed_lines (trimEnd s) = trimmed_lines s.
Proof.
  unfold trimEnd. rewrite <- (rev_involutive s) at 2.
  induction (rev s) as [|c r IH]; [reflexivity|].
  cbn [trimStart rev]. destruct (is_white_space c) eqn:Hc; [|reflexivity].
  rewrite IH. symmetry. apply trimmed_lines_snoc_white. exact Hc.
Qed.

(** Trimming the block first does not change its non-empty trimmed lines. *)
Lemma trimmed_lines_trim (s : jsstring) :
  trimmed_lines (trim s) = trimmed_lines s.
Proof.
  unfold trim. rewrite trimmed_lines_trimEnd. apply trimmed_lines_trimStart.
Qed.

(** A block without a non-empty trimmed line is white space only. *)
Lemma trimmed_lines_nil_all_white (s : jsstring) :
  trimmed_lines s = [] -> all_white s = true.
Proof.
  induction s as [|c s IH]; [reflexivity|].
  unfold trimmed_lines in *. rewrite lines_cons.
  destruct (10 =? c) eqn:E.
  - apply N.eqb_eq in E. subst c. cbn [map filter].
    change (trim []) with (@nil code_unit). cbn [nonempty].
    intros H. cbn [all_white forallb]. rewrite white_newline. exact (IH H).
  - destruct (split s [10]) as [|p ps] eqn:Es;
      [exfalso; exact (lines_nonempty _ Es)|].
    cbn [cons_head map filter] in *.
    destruct (is_white_space c) eqn:Hc.
    + rewrite (trim_cons_white _ _ Hc). intros H.
      cbn [all_white forallb]. rewrite Hc. exact (IH H).
    + destruct (trim (c :: p)) eqn:Et.
      * exfalso. unfold trim in Et. cbn [trimStart] in Et. rewrite Hc in Et.
        exact (trimEnd_cons_visible c p Hc Et).
      * cbn [nonempty]. discriminate.
Qed.

Lemma all_white_trimmed_lines (s : jsstring) :
  all_white s = true -> trimmed_lines s = [].
Proof.
  intros H. rewrite <- trimmed_lines_trim, (trim_all_white _ H). reflexivity.
Qed.

End TrimFacts.

(** * [JSON.parse] reads back what [JSON.stringify] writes *)

Section JsonFacts.

Lemma hex_value_digit (n : N) : n < 16 -> hex_value (hex_digit n) = Some n.
Proof.
  intros H. unfold hex_digit, hex_value.
  destruct (N.ltb_spec n 10).
  - replace ((48 <=? 48 + n) && (48 + n <=? 57)) with true.
    + f_equal. lia.
    + symmetry. apply andb_true_iff. split; apply N.leb_le; lia.
  - replace ((48 <=? 87 + n) && (87 + n <=? 57)) with false.
    + replace ((97 <=? 87 + n) && (87 + n <=? 102)) with true.
      * f_equal. lia.
      * symmetry. apply andb_true_iff. split; apply N.leb_le; lia.
    + symmetry. apply andb_false_iff. right. apply N.leb_gt. lia.
Qed.

Lemma nibbles (c : N) :
  c < 65536 ->
  4096 * ((c / 4096) mod 16) + 256 * ((c / 256) mod 16)
  + 16 * ((c / 16) mod 16) + c mod 16 = c.
Proof.
  intros H.
  pose proof (N.div_mod c 16 ltac:(lia)) as H0.
  pose proof (N.div_mod (c / 16) 16 ltac:(lia)) as H1.
  pose proof (N.div_mod (c / 16 / 16) 16 ltac:(lia)) as H2.
  rewrite !N.Div0.div_div in H1, H2.
  rewrite !N.Div0.div_div in H2.
  change (16 * 16) with 256 in *. change (256 * 16) with 4096 in *.
  assert (c / 4096 < 16) by (apply N.Div0.div_lt_upper_bound; lia).
  rewrite (N.mod_small (c / 4096) 16) by assumption.
  lia.
Qed.

Lemma parse_UnicodeEscape (c : code_unit) (r : jsstring) :
  c < 65536 ->
  parse_string_chars (UnicodeEscape c ++ r) = consume c (parse_string_chars r).
Proof.
  intros H. unfold UnicodeEscape.
  cbn [app parse_string_chars].
  change (92 =? 34) with false. change (92 =? 92) with true.
  change (117 =? 117) with true. cbv iota.
  rewrite !hex_value_digit by (apply N.mod_lt; lia).
  rewrite (nibbles c H). reflexivity.
Qed.

Ltac eqb_case c n :=
  destruct (N.eqb_spec c n) as [->|?]; [reflexivity|].

Lemma parse_quote_unit (c : code_unit) (r : jsstring) :
  parse_string_chars (quote_unit c ++ r) = consume c (parse_string_chars r).
Proof.
  unfold quote_unit.
  eqb_case c 8. eqb_case c 9. eqb_case c 10. eqb_case c 12. eqb_case c 13.
  eqb_case c 34. eqb_case c 92.
  destruct ((c <? 32) || is_leading_surrogate c || is_trailing_surrogate c)
    eqn:E.
  - apply parse_UnicodeEscape.
    unfold is_leading_surrogate, is_trailing_surrogate in E.
    repeat (apply orb_true_iff in E; destruct E as [E|E]).
    + apply N.ltb_lt in E. lia.
    + apply andb_true_iff in E. destruct E as [_ E]. apply N.leb_le in E. lia.
    + apply andb_true_iff in E. destruct E as [_ E]. apply N.leb_le in E. lia.
  - apply orb_false_iff in E. destruct E as [E _].
    apply orb_false_iff in E. destruct E as [E _].
    cbn [app parse_string_chars].
    destruct (N.eqb_spec c 34); [contradiction|].
    destruct (N.eqb_spec c 92); [contradiction|].
    rewrite E. reflexivity.
Qed.

Lemma parse_surrogate (c : code_unit) (r : jsstring) :
  is_leading_surrogate c || is_trailing_surrogate c = true ->
  parse_string_chars (c :: r) = consume c (parse_string_chars r).
Proof.
  intros H. cbn [parse_string_chars].
  assert (55296 <= c) as Hc.
  { unfold is_leading_surrogate, is_trailing_surrogate in H.
    apply orb_true_iff in H. destruct H as [H|H];
      apply andb_true_iff in H; destruct H as [H _]; apply N.leb_le in H; lia. }
  destruct (N.eqb_spec c 34); [lia|].
  destruct (N.eqb_spec c 92); [lia|].
  destruct (N.ltb_spec c 32); [lia|]. reflexivity.
Qed.

(** The body of a quoted string, followed by the closing quote, reads back
    as the string. *)
Lemma parse_quote_units (s r : jsstring) :
  parse_string_chars (quote_units s ++ 34 :: r) = Some (s, r).
Proof.
  enough (forall s,
             parse_string_chars (quote_units s ++ 34 :: r) = Some (s, r)
             /\ forall c, parse_string_chars (quote_units (c :: s) ++ 34 :: r)
                          = Some (c :: s, r)) as H by apply H.
  clear s. induction s as [|d s [IH1 IH2]].
  - split; [reflexivity|].
    intros c. cbn [quote_units]. rewrite parse_quote_unit. reflexivity.
  - split; [apply IH2|].
    intros c. cbn [quote_units].
    destruct (is_leading_surrogate c && is_trailing_surrogate d) eqn:E.
    + apply andb_true_iff in E. destruct E as [Ec Ed].
      cbn [app]. rewrite parse_surrogate by (rewrite Ec; reflexivity).
      rewrite parse_surrogate by (rewrite Ed; apply orb_true_r).
      rewrite IH1. reflexivity.
    + rewrite <- app_assoc, parse_quote_unit.
      change (quote_units (d :: s)) with
        (match s with
         | d' :: t' =>
             if is_leading_surrogate d && is_trailing_surrogate d'
             then d :: d' :: quote_units t'
             else quote_unit d ++ quote_units s
         | [] => quote_unit d
         end) .
      specialize (IH2 d). cbn [quote_units] in IH2. rewrite IH2. reflexivity.
Qed.

End JsonFacts.

(** ** Objects whose members are strings *)

Section FlatObjects.

Variable Number_toString : number -> jsstring.

Lemma QuoteJSONString_app (s r : jsstring) :
  QuoteJSONString s ++ r = 34 :: quote_units s ++ 34 :: r.
Proof. unfold QuoteJSONString. cbn [app]. rewrite <- app_assoc. reflexivity. Qed.

Lemma member_text_app (kv : jsstring * jsstring) (r : jsstring) :
  member_text kv ++ r
  = 34 :: quote_units (fst kv) ++ 34 :: 58 :: 34 :: quote_units (snd kv)
         ++ 34 :: r.
Proof.
  unfold member_text. rewrite <- !app_assoc, QuoteJSONString_app.
  cbn [app]. rewrite QuoteJSONString_app. reflexivity.
Qed.

Lemma stringify_flat (fields : list (jsstring * jsstring)) :
  stringify Number_toString (JObject (flat_members fields))
  = wrap 123 125 [] [] [] (map member_text fields).
Proof.
  unfold stringify, flat_members. cbn [SerializeJSONProperty app].
  rewrite map_map. reflexivity.
Qed.

Lemma parse_value_string (f : nat) (s r : jsstring) :
  parse_value (S f) (34 :: quote_units s ++ 34 :: r) = Some (JString s, r).
Proof.
  cbn [parse_value]. change (34 =? 123) with false.
  change (34 =? 91) with false. change (34 =? 34) with true. cbv iota.
  rewrite parse_quote_units. reflexivity.
Qed.

Lemma expect_same (c : code_unit) (r : jsstring) : expect c (c :: r) = Some r.
Proof. cbn [expect]. rewrite N.eqb_refl. reflexivity. Qed.

Lemma parse_members_unfold (f : nat) (s : jsstring) :
  parse_members (S f) s
  = match expect 34 s with
    | None => None
    | Some t =>
        match parse_string_chars t with
        | None => None
        | Some (k, r) =>
            match expect 58 (skip_ws r) with
            | None => None
            | Some r1 =>
                match parse_value f (skip_ws r1) with
                | None => None
                | Some (v, r2) =>
                    match expect 44 (skip_ws r2) with
                    | Some r3 => consume (k, v) (parse_members f (skip_ws r3))
                    | None =>
                        match expect 125 (skip_ws r2) with
                        | Some r3 => Some ([(k, v)], r3)
                        | None => None
                        end
                    end
                end
            end
        end
    end.
Proof. reflexivity. Qed.

(** Reading one member of a flat object. *)
Lemma parse_member (f : nat) (kv : jsstring * jsstring) (r : jsstring) :
  parse_members (S (S f)) (member_text kv ++ r)
  = match expect 44 (skip_ws r) with
    | Some r3 =>
        consume (fst kv, JString (snd kv)) (parse_members (S f) (skip_ws r3))
    | None =>
        match expect 125 (skip_ws r) with
        | Some r3 => Some ([(fst kv, JString (snd kv))], r3)
        | None => None
        end
    end.
Proof.
  rewrite member_text_app, parse_members_unfold, expect_same.
  rewrite parse_quote_units.
  change (skip_ws (58 :: 34 :: quote_units (snd kv) ++ 34 :: r))
    with (58 :: 34 :: quote_units (snd kv) ++ 34 :: r).
  rewrite expect_same.
  change (skip_ws (34 :: quote_units (snd kv) ++ 34 :: r))
    with (34 :: quote_units (snd kv) ++ 34 :: r).
  rewrite parse_value_string. reflexivity.
Qed.

Lemma skip_ws_members (fields : list (jsstring * jsstring)) (r : jsstring) :
  fields <> [] ->
  skip_ws (join [44] (map member_text fields) ++ r)
  = join [44] (map member_text fields) ++ r.
Proof.
  destruct fields as [|kv [|kv' rest]]; intros H; [congruence| |].
  - cbn [map join]. rewrite member_text_app. reflexivity.
  - change (join [44] (map member_text (kv :: kv' :: rest)))
      with (member_text kv ++ [44]
            ++ join [44] (map member_text (kv' :: rest))).
    rewrite <- app_assoc, member_text_app. reflexivity.
Qed.

(** The members of a flat object, up to the closing brace. *)
Lemma parse_members_flat (fields : list (jsstring * jsstring)) :
  fields <> [] ->
  forall (f : nat) (r : jsstring),
    (List.length fields < f)%nat ->
    parse_members f (join [44] (map member_text fields) ++ 125 :: r)
    = Some (flat_members fields, r).
Proof.
  induction fields as [|kv rest IH]; [congruence|].
  intros _ f r Hf. destruct f as [|[|f]]; cbn [List.length] in Hf; try lia.
  destruct rest as [|kv' rest].
  - cbn [map join]. rewrite parse_member. reflexivity.
  - change (join [44] (map member_text (kv :: kv' :: rest)))
      with (member_text kv ++ [44]
            ++ join [44] (map member_text (kv' :: rest))).
    rewrite <- !app_assoc, parse_member.
    change (skip_ws (([44] ++ join [44] (map member_text (kv' :: rest)))
                     ++ 125 :: r))
      with (44 :: join [44] (map member_text (kv' :: rest)) ++ 125 :: r).
    cbn [app].
    change (skip_ws (44 :: ?x)) with (44 :: x).
    rewrite expect_same, skip_ws_members by discriminate.
    rewrite (IH ltac:(discriminate) (S f) r) by (cbn [List.length] in *; lia).
    reflexivity.
Qed.

Lemma join_members_length (fields : list (jsstring * jsstring)) :
  (List.length fields
   <= List.length (join [44%N] (map member_text fields)))%nat.
Proof.
  induction fields as [|kv rest IH]; [cbn; lia|].
  destruct rest as [|kv' rest].
  - cbn [map join List.length]. unfold member_text, QuoteJSONString.
    rewrite !length_app. cbn [List.length]. lia.
  - change (join [44] (map member_text (kv :: kv' :: rest)))
      with (member_text kv ++ [44]
            ++ join [44] (map member_text (kv' :: rest))).
    rewrite !length_app. cbn [List.length] in *.
    etransitivity; [apply le_n_S, IH | apply Nat.le_add_l].
Qed.

(** A flat object survives [JSON.stringify] followed by [JSON.parse]. *)
Lemma parse_stringify_flat (fields : list (jsstring * jsstring)) :
  JSON_parse (stringify Number_toString (JObject (flat_members fields)))
  = Some (JObject (flat_members fields)).
Proof.
  rewrite stringify_flat.
  destruct fields as [|kv rest]; [reflexivity|].
  set (ms := kv :: rest).
  assert (ms <> []) as Hms by discriminate.
  assert (wrap 123 125 [] [] [] (map member_text ms)
          = 123 :: join [44] (map member_text ms) ++ [125]) as ->
      by reflexivity.
  unfold JSON_parse.
  change (skip_ws (123 :: ?x)) with (123 :: x).
  cbn [List.length].
  assert (forall f x, parse_value (S f) (123 :: x)
                      = match expect 125 (skip_ws x) with
                        | Some r => Some (JObject [], r)
                        | None =>
                            match parse_members f (skip_ws x) with
                            | Some (ms, r) => Some (JObject ms, r)
                            | None => None
                            end
                        end) as -> by reflexivity.
  rewrite (skip_ws_members ms [125] Hms).
  assert (expect 125 (join [44] (map member_text ms) ++ [125]) = None) as ->.
  { subst ms. destruct rest; cbn [map join];
      rewrite <- ?app_assoc, member_text_app; reflexivity. }
  rewrite (parse_members_flat ms Hms).
  - reflexivity.
  - rewrite length_app. cbn [List.length].
    pose proof (join_members_length ms). lia.
Qed.

Lemma enhancedQuery_flat (query searchSummary dbSummary : jsstring) :
  enhancedQuery query searchSummary dbSummary
  = JObject (flat_members [(js "originalQuery", query);
                           (js "searchSummary", searchSummary);
                           (js "dbResults", dbSummary)]).
Proof. reflexivity. Qed.

Lemma trimmed_lines_nil : trimmed_lines [] = [].
Proof. reflexivity. Qed.

(** What the web agent reads out of the controller's handoff object. *)
Lemma searchQueries_enhancedQuery (query searchSummary dbSummary : jsstring) :
  searchQueries
    (stringify Number_toString (enhancedQuery query searchSummary dbSummary))
  = trimmed_lines searchSummary.
Proof.
  unfold searchQueries.
  rewrite enhancedQuery_flat, parse_stringify_flat.
  cbn [flat_members map fst snd read_searchSummary].
  assert (lookup_member (js "searchSummary")
            [(js "originalQuery", JString query);
             (js "searchSummary", JString searchSummary);
             (js "dbResults", JString dbSummary)]
          = Some (JString searchSummary)) as -> by reflexivity.
  destruct searchSummary; reflexivity.
Qed.

End FlatObjects.

(** * The agents *)

Section AgentFacts.

Variable env : Env.

(** ** Traces *)

Lemma no_web_events (tr : list Event) :
  forallb retrieval_event tr = true ->
  web_agent_calls tr = [] /\ searches_issued tr = []
  /\ synthesis_prompts tr = [].
Proof.
  induction tr as [|e tr IH]; [intros _; repeat split|].
  cbn [forallb]. intros H. apply andb_true_iff in H. destruct H as [He Ht].
  destruct (IH Ht) as (H1 & H2 & H3).
  destruct e; cbn in He; try discriminate; cbn; auto.
Qed.

Lemma run_tool_events (call : ToolCall) :
  forallb retrieval_event (fst (run_tool env call)) = true.
Proof.
  unfold run_tool.
  destruct (jsstring_eqb _ _); [|reflexivity].
  destruct (schema_parse _) as [[q n]|]; reflexivity.
Qed.

Lemma toolNode_events (calls : list ToolCall) :
  forallb retrieval_event (fst (toolNode env calls)) = true.
Proof.
  induction calls as [|c rest IH]; [reflexivity|].
  cbn [toolNode]. pose proof (run_tool_events c) as Hc.
  destruct (run_tool env c) as [e1 m]. destruct (toolNode env rest) as [e2 ms].
  cbn [fst] in *. rewrite forallb_app, Hc, IH. reflexivity.
Qed.

Lemma run_steps_events (budget : nat) :
  forall (node : Node) (call : nat) (elapsed : N) (messages : list Message),
    forallb retrieval_event
      (graph_trace (run_steps env budget node call elapsed messages)) = true.
Proof.
  induction budget as [|b IH]; intros node call elapsed messages;
    [reflexivity|].
  cbn [run_steps]. destruct node.
  - destruct (_ <? invoke_timeout); [|reflexivity].
    destruct (callModel env call messages) as [update|e]; [|reflexivity].
    destruct (shouldContinue _);
      cbn [after graph_trace app forallb retrieval_event andb].
    + apply IH.
    + destruct b; reflexivity.
  - pose proof (toolNode_events (last_tool_calls messages)) as Ht.
    destruct (toolNode env (last_tool_calls messages)) as [evs out].
    cbn [fst] in Ht.
    destruct (_ <? invoke_timeout);
      cbn [after graph_trace app forallb retrieval_event andb].
    + rewrite forallb_app, Ht. apply IH.
    + exact Ht.
Qed.

Lemma run_graph_events (budget : nat) :
  forall (node : Node) (call : nat) (messages : list Message),
    forallb retrieval_event
      (graph_trace (run_graph env budget node call messages)) = true.
Proof. intros node call messages. apply run_steps_events. Qed.

Lemma model_invocations_app (a b : list Event) :
  model_invocations (a ++ b)
  = (model_invocations a + model_invocations b)%nat.
Proof.
  induction a as [|x a IH]; [reflexivity|].
  destruct x; cbn; rewrite ?IH; reflexivity.
Qed.

Lemma tool_rounds_app (a b : list Event) :
  tool_rounds (a ++ b) = (tool_rounds a + tool_rounds b)%nat.
Proof.
  induction a as [|x a IH]; [reflexivity|].
  destruct x; cbn; rewrite ?IH; reflexivity.
Qed.

Lemma run_tool_counts (c : ToolCall) :
  model_invocations (fst (run_tool env c)) = O
  /\ tool_rounds (fst (run_tool env c)) = O.
Proof.
  unfold run_tool. destruct (jsstring_eqb _ _); [|split; reflexivity].
  destruct (schema_parse _) as [[q n]|]; split; reflexivity.
Qed.

Lemma toolNode_counts (calls : list ToolCall) :
  model_invocations (fst (toolNode env calls)) = O
  /\ tool_rounds (fst (toolNode env calls)) = O.
Proof.
  induction calls as [|c rest [IH1 IH2]]; [split; reflexivity|].
  cbn [toolNode]. destruct (run_tool_counts c) as [H1 H2].
  destruct (run_tool env c) as [e1 m]. destruct (toolNode env rest) as [e2 ms].
  cbn [fst] in *.
  rewrite model_invocations_app, tool_rounds_app, H1, H2, IH1, IH2.
  split; reflexivity.
Qed.

(** Each node execution uses up one step of the budget: started at the
    agent node with budget [b], a run invokes the model at most [(b+1)/2]
    times and runs the tools at most [b/2] times; a run that ends normally
    has left a step unused. *)
Lemma run_steps_counts (budget : nat) :
  forall (call : nat) (elapsed : N) (messages : list Message),
    let at_agent := run_steps env budget agent call elapsed messages in
    let at_tools := run_steps env budget tools call elapsed messages in
    (2 * model_invocations (graph_trace at_agent) <= S budget)%nat
    /\ (2 * tool_rounds (graph_trace at_agent) <= budget)%nat
    /\ (2 * model_invocations (graph_trace at_tools) <= budget)%nat
    /\ (2 * tool_rounds (graph_trace at_tools) <= S budget)%nat
    /\ (forall node final,
           final_state (run_steps env budget node call elapsed messages)
           = Normal final ->
           (model_invocations
              (graph_trace (run_steps env budget node call elapsed messages))
            + tool_rounds
                (graph_trace (run_steps env budget node call elapsed messages))
            < budget)%nat).
Proof.
  induction budget as [|b IH]; intros call elapsed messages.
  - cbn. repeat split; try lia. intros node final H. discriminate.
  - cbn zeta. cbn [run_steps]. repeat split.
    + destruct (_ <? invoke_timeout); [|cbn; lia].
      destruct (callModel env call messages) as [update|e]; [|cbn; lia].
      destruct (shouldContinue _).
      * destruct (IH (S call) (elapsed + model_takes env call messages)
                    (messages ++ update)) as (_ & _ & H & _).
        cbn [after graph_trace app model_invocations]. lia.
      * destruct b; cbn; lia.
    + destruct (_ <? invoke_timeout); [|cbn; lia].
      destruct (callModel env call messages) as [update|e]; [|cbn; lia].
      destruct (shouldContinue _).
      * destruct (IH (S call) (elapsed + model_takes env call messages)
                    (messages ++ update)) as (_ & _ & _ & H & _).
        cbn [after graph_trace app tool_rounds]. lia.
      * destruct b; cbn; lia.
    + destruct (toolNode_counts (last_tool_calls messages)) as [H1 _].
      destruct (toolNode env (last_tool_calls messages)) as [evs out].
      cbn [fst] in H1.
      destruct (_ <? invoke_timeout).
      * destruct (IH call
                    (elapsed + tools_take env (last_tool_calls messages))
                    (messages ++ out)) as (H & _).
        cbn [after graph_trace app model_invocations].
        rewrite model_invocations_app, H1. lia.
      * cbn [graph_trace model_invocations]. rewrite H1. lia.
    + destruct (toolNode_counts (last_tool_calls messages)) as [_ H2].
      destruct (toolNode env (last_tool_calls messages)) as [evs out].
      cbn [fst] in H2.
      destruct (_ <? invoke_timeout).
      * destruct (IH call
                    (elapsed + tools_take env (last_tool_calls messages))
                    (messages ++ out)) as (_ & H & _).
        cbn [after graph_trace app tool_rounds].
        rewrite tool_rounds_app, H2. lia.
      * cbn [graph_trace tool_rounds]. rewrite H2. lia.
    + intros node final. destruct node; cbn [run_steps].
      * destruct (_ <? invoke_timeout); [|discriminate].
        destruct (callModel env call messages) as [update|e];
          [|discriminate].
        destruct (shouldContinue _).
        -- cbn [after graph_trace final_state app model_invocations
                tool_rounds].
           intros H.
           destruct (IH (S call) (elapsed + model_takes env call messages)
                       (messages ++ update)) as (_ & _ & _ & _ & Hn).
           specialize (Hn tools final H). lia.
        -- destruct b; [discriminate|]. cbn. lia.
      * destruct (toolNode_counts (last_tool_calls messages)) as [H1 H2].
        destruct (toolNode env (last_tool_calls messages)) as [evs out].
        cbn [fst] in H1, H2.
        destruct (_ <? invoke_timeout); [|discriminate].
        cbn [after graph_trace final_state app model_invocations tool_rounds].
        rewrite model_invocations_app, tool_rounds_app, H1, H2.
        intros H.
        destruct (IH call
                    (elapsed + tools_take env (last_tool_calls messages))
                    (messages ++ out)) as (_ & _ & _ & _ & Hn).
        specialize (Hn agent final H). lia.
Qed.

Lemma last_tool_calls_reply (messages : list Message) (r : AIReply) :
  last_tool_calls (messages ++ [AIMessage r]) = tool_calls r.
Proof.
  unfold last_tool_calls. rewrite map_app. cbn [map].
  rewrite last_last. reflexivity.
Qed.

(** A model that always asks for a tool never lets a run end normally:
    the run ends at the step limit, unless the timeout comes first. *)
Lemma greedy_run_fails (budget : nat) :
  always_requests_tools env ->
  forall node call elapsed messages,
    final_state (run_steps env budget node call elapsed messages)
    = Throw GraphRecursionError
    \/ final_state (run_steps env budget node call elapsed messages)
       = Throw TimeoutError.
Proof.
  intros Hg. induction budget as [|b IH];
    intros node call elapsed messages; [left; reflexivity|].
  cbn [run_steps]. destruct node.
  - destruct (_ <? invoke_timeout); [|right; reflexivity].
    unfold callModel. destruct (Hg call messages) as (reply & -> & Hcalls).
    unfold shouldContinue. rewrite last_tool_calls_reply.
    destruct (tool_calls reply) eqn:E; [congruence|].
    cbn [after final_state]. apply IH.
  - destruct (toolNode env (last_tool_calls messages)) as [evs out].
    destruct (_ <? invoke_timeout); [|right; reflexivity].
    cbn [after final_state]. apply IH.
Qed.

(** With steps short enough for the whole budget to fit in before the
    timeout, it is the step limit that ends such a run. *)
Lemma greedy_fast_run_fails (m : N) (budget : nat) :
  always_requests_tools env ->
  steps_take_less env m ->
  forall node call elapsed messages,
    elapsed + N.of_nat budget * m <= invoke_timeout ->
    final_state (run_steps env budget node call elapsed messages)
    = Throw GraphRecursionError.
Proof.
  intros Hg [Hm Ht]. induction budget as [|b IH];
    intros node call elapsed messages Hb; [reflexivity|].
  cbn [run_steps]. destruct node.
  - specialize (Hm call messages).
    destruct (N.ltb_spec (elapsed + model_takes env call messages)
                invoke_timeout) as [_|Hge]; [|lia].
    unfold callModel. destruct (Hg call messages) as (reply & -> & Hcalls).
    unfold shouldContinue. rewrite last_tool_calls_reply.
    destruct (tool_calls reply) eqn:E; [congruence|].
    cbn [after final_state]. apply IH. lia.
  - specialize (Ht (last_tool_calls messages)).
    destruct (toolNode env (last_tool_calls messages)) as [evs out].
    destruct (N.ltb_spec (elapsed + tools_take env (last_tool_calls messages))
                invoke_timeout) as [_|Hge]; [|lia].
    cbn [after final_state]. apply IH. lia.
Qed.

End AgentFacts.

(** ** The web agent *)

Section WebFacts.

Variable env : Env.

Lemma search_loop_events (queries : list jsstring) :
  forall i, fst (fst (search_loop env i queries)) = map TavilyInvoked queries.
Proof.
  induction queries as [|q rest IH]; intros i; [reflexivity|].
  cbn [search_loop]. specialize (IH (S i)).
  destruct (search_one env i q) as [dt entry].
  destruct (search_loop env (S i) rest) as [[evs t] entries].
  cbn [fst map] in *. rewrite IH. reflexivity.
Qed.

Lemma search_loop_entries (queries : list jsstring) :
  forall i,
    List.length (snd (search_loop env i queries)) = List.length queries.
Proof.
  induction queries as [|q rest IH]; intros i; [reflexivity|].
  cbn [search_loop]. specialize (IH (S i)).
  destruct (search_one env i q) as [dt entry].
  destruct (search_loop env (S i) rest) as [[evs t] entries].
  cbn [snd List.length] in *. rewrite IH. reflexivity.
Qed.

(** A failing search leaves an error entry. *)
Lemma search_one_fails (i : nat) (q : jsstring) :
  search_fails env i q = true ->
  is_error_entry (snd (search_one env i q)) = true.
Proof.
  unfold search_fails, search_one, race. intros H.
  destruct (settles_after (tavily env i q) <? search_timeout);
    cbn [negb orb] in H.
  - cbn [snd]. destruct (settlement (tavily env i q)); [discriminate|].
    reflexivity.
  - reflexivity.
Qed.

Lemma search_loop_all_fail (queries : list jsstring) :
  forall i,
    all_searches_fail env i queries = true ->
    forallb is_error_entry (snd (search_loop env i queries)) = true.
Proof.
  induction queries as [|q rest IH]; intros i H; [reflexivity|].
  cbn [all_searches_fail] in H. apply andb_true_iff in H.
  destruct H as [Hq Hrest].
  cbn [search_loop]. specialize (IH (S i) Hrest).
  pose proof (search_one_fails i q Hq) as Hone.
  destruct (search_one env i q) as [dt entry].
  destruct (search_loop env (S i) rest) as [[evs t] entries].
  cbn [snd forallb] in *. rewrite Hone, IH. reflexivity.
Qed.

Lemma searches_issued_tavily (queries : list jsstring) (tr : list Event) :
  searches_issued (map TavilyInvoked queries ++ tr)
  = queries ++ searches_issued tr.
Proof.
  induction queries as [|q rest IH]; [reflexivity|].
  cbn [map app searches_issued]. rewrite IH. reflexivity.
Qed.

Lemma web_agent_calls_tavily (queries : list jsstring) (tr : list Event) :
  web_agent_calls (map TavilyInvoked queries ++ tr) = web_agent_calls tr.
Proof.
  induction queries as [|q rest IH]; [reflexivity|].
  cbn [map app web_agent_calls]. exact IH.
Qed.

(** The race against the synthesis deadline, spelled out. *)
Lemma synthesis_outcome (prompt dbResults : jsstring) :
  settlement (race (processPromise env prompt dbResults) processing_timeout
                (js "Processing timeout"))
  = if settles_after (synthesis env prompt) <? processing_timeout
    then match settlement (synthesis env prompt) with
         | Normal content => Normal content
         | Throw _ => Normal (Text (fallback dbResults))
         end
    else Throw {| message := js "Processing timeout" |}.
Proof.
  unfold race, processPromise. cbn [settles_after settlement].
  destruct (settles_after (synthesis env prompt) <? processing_timeout);
    reflexivity.
Qed.

(** What the web agent does once its clients exist. *)
Lemma webSearchAgent_run (query dbResults thread_id : jsstring) (u : unit) :
  new_clients env = Normal u ->
  let entries := snd (search_loop env 0 (searchQueries query)) in
  let prompt := synthesis_prompt env query dbResults entries in
  web_trace (webSearchAgent env query dbResults thread_id)
  = map TavilyInvoked (searchQueries query) ++ [SynthesisInvoked prompt]
  /\ settlement (web_promise (webSearchAgent env query dbResults thread_id))
     = match settlement (synthesis env prompt) with
       | Normal content =>
           if settles_after (synthesis env prompt) <? processing_timeout
           then Normal content
           else Normal (Text (fallback dbResults))
       | Throw _ => Normal (Text (fallback dbResults))
       end.
Proof.
  intros Hc. unfold webSearchAgent. rewrite Hc.
  pose proof (search_loop_events (searchQueries query) 0%nat) as Hev.
  destruct (search_loop env 0 (searchQueries query)) as [[evs t] entries].
  cbn [fst snd] in *. subst evs. cbn zeta.
  cbn [web_trace web_promise settlement]. split; [reflexivity|].
  rewrite synthesis_outcome.
  destruct (settles_after (synthesis env _) <? processing_timeout);
    destruct (settlement (synthesis env _)); reflexivity.
Qed.

Lemma webSearchAgent_rejects (query dbResults thread_id : jsstring)
  (e : Error) :
  new_clients env = Throw e ->
  webSearchAgent env query dbResults thread_id
  = {| web_trace := [];
       web_promise := {| settles_after := 0; settlement := Throw e |} |}.
Proof. intros Hc. unfold webSearchAgent. rewrite Hc. reflexivity. Qed.

Lemma webSearchAgent_trace (query dbResults thread_id : jsstring) :
  web_agent_calls (web_trace (webSearchAgent env query dbResults thread_id))
  = []
  /\ searches_issued
       (web_trace (webSearchAgent env query dbResults thread_id))
     = match new_clients env with
       | Normal _ => searchQueries query
       | Throw _ => []
       end.
Proof.
  destruct (new_clients env) as [u|e] eqn:Hc.
  - destruct (webSearchAgent_run query dbResults thread_id u Hc) as [-> _].
    rewrite web_agent_calls_tavily, searches_issued_tavily.
    cbn. rewrite app_nil_r. split; reflexivity.
  - rewrite (webSearchAgent_rejects _ _ _ e Hc). split; reflexivity.
Qed.

Lemma fallback_marked (dbResults : jsstring) :
  startsWith (fallback dbResults) RECOMMENDATIONS = true
  /\ fallback dbResults <> [].
Proof.
  split.
  - unfold fallback. apply startsWith_app.
  - discriminate.
Qed.

(** ** The controller's branches *)

Lemma includes_nonempty (s needle : jsstring) :
  includes s needle = true -> needle <> [] -> nonempty s = true.
Proof.
  intros H Hn. destruct s; [|reflexivity].
  destruct needle; [congruence | discriminate].
Qed.

Lemma callAgent_try_forward (query thread_id s : jsstring) :
  includes s PASS_TO_WEB_AGENT = true ->
  callAgent_try env (Normal (Text s)) query thread_id
  = web_stage env
      (stringify (Number_toString env)
         (enhancedQuery query
            (trim (text_before (text_after s PASS_TO_WEB_AGENT)
                     PASS_TO_WEB_AGENT))
            (trim (text_before s PASS_TO_WEB_AGENT))))
      s thread_id (unverified (text_before s PASS_TO_WEB_AGENT)).
Proof.
  intros H. unfold callAgent_try.
  rewrite (includes_nonempty _ _ H) by discriminate. rewrite H.
  destruct (split_at_first 80 (js "ASS_TO_WEB_AGENT") s H) as [more Hs].
  change (80 :: js "ASS_TO_WEB_AGENT") with PASS_TO_WEB_AGENT in Hs.
  rewrite Hs. reflexivity.
Qed.

Lemma callAgent_try_no_results (query thread_id s : jsstring) :
  includes s PASS_TO_WEB_AGENT = false ->
  includes s NO_RESULTS_FOUND = true ->
  callAgent_try env (Normal (Text s)) query thread_id
  = web_stage env query (js "No database results found.") thread_id
      nothing_found.
Proof.
  intros Hp Hn. unfold callAgent_try.
  rewrite (includes_nonempty _ _ Hn) by discriminate. rewrite Hp, Hn.
  reflexivity.
Qed.

Lemma callAgent_try_plain (query thread_id s : jsstring) :
  includes s PASS_TO_WEB_AGENT = false ->
  includes s NO_RESULTS_FOUND = false ->
  callAgent_try env (Normal (Text s)) query thread_id
  = {| trace := []; outcome := Normal (Text s) |}.
Proof.
  intros Hp Hn. unfold callAgent_try. rewrite Hp, Hn.
  destruct (nonempty s); reflexivity.
Qed.

(** The controller is the lookup agent followed by the rest of the [try]
    block on its answer. *)
Lemma callAgent_decompose (query thread_id : jsstring) :
  callAgent env query thread_id
  = {| trace :=
         fst (eventLookupAgent env query thread_id)
         ++ trace (callAgent_from env
                     (Normal (snd (eventLookupAgent env query thread_id)))
                     query thread_id);
       outcome :=
         outcome (callAgent_from env
                    (Normal (snd (eventLookupAgent env query thread_id)))
                    query thread_id) |}.
Proof.
  unfold callAgent. destruct (eventLookupAgent env query thread_id).
  reflexivity.
Qed.

(** The web stage never throws. *)
Lemma web_stage_returns (query dbResults thread_id otherwise : jsstring) :
  exists v,
    outcome (web_stage env query dbResults thread_id otherwise) = Normal v.
Proof.
  unfold web_stage. cbn [outcome].
  destruct (settlement _); eexists; reflexivity.
Qed.

(** Once the lookup agent has answered, nothing in the [try] block throws:
    the second piece of the split is there whenever the marker is. *)
Lemma callAgent_try_returns (c : Content) (query thread_id : jsstring) :
  exists v, outcome (callAgent_try env (Normal c) query thread_id) = Normal v.
Proof.
  destruct c as [s|blocks]; [|eexists; reflexivity].
  destruct (includes s PASS_TO_WEB_AGENT) eqn:Hp.
  - rewrite (callAgent_try_forward _ _ _ Hp). apply web_stage_returns.
  - destruct (includes s NO_RESULTS_FOUND) eqn:Hn.
    + rewrite (callAgent_try_no_results _ _ _ Hp Hn). apply web_stage_returns.
    + rewrite (callAgent_try_plain _ _ _ Hp Hn). eexists; reflexivity.
Qed.

Lemma web_stage_outcome (query dbResults thread_id otherwise : jsstring) :
  let w := webSearchAgent env query dbResults thread_id in
  outcome (web_stage env query dbResults thread_id otherwise)
  = match settlement (web_promise w) with
    | Normal out =>
        if settles_after (web_promise w) <? web_search_process_timeout
        then Normal out
        else Normal (Text otherwise)
    | Throw _ => Normal (Text otherwise)
    end.
Proof.
  cbn zeta. unfold web_stage, race. cbn [outcome].
  destruct (web_promise (webSearchAgent env query dbResults thread_id))
    as [t [out|e]]; cbn [settles_after settlement];
    destruct (t <? web_search_process_timeout); reflexivity.
Qed.

(** White space holds no marker. *)
Lemma all_white_no_marker (s : jsstring) :
  all_white s = true -> includes s PASS_TO_WEB_AGENT = false.
Proof.
  intros Hw. destruct (includes s PASS_TO_WEB_AGENT) eqn:E; [|reflexivity].
  rewrite (text_before_after _ _ E) in Hw. unfold all_white in Hw.
  rewrite !forallb_app in Hw.
  apply andb_true_iff in Hw. destruct Hw as [_ Hw].
  apply andb_true_iff in Hw. destruct Hw as [Hw _].
  discriminate.
Qed.

Lemma text_before_absent (s sep : jsstring) :
  includes s sep = false -> text_before s sep = s.
Proof.
  intros H. unfold text_before. rewrite (includes_false_indexOf _ _ H).
  reflexivity.
Qed.

End WebFacts.

(** * The handoff from the retrieval agent to the web agent *)

(** C1.  For a retrieval output that contains the forward marker, the
    controller calls the web agent with the JSON text of a handoff object
    whose [dbResults] member is the trimmed text in front of the first
    (leftmost) marker and whose [searchSummary] member is the trimmed text
    between the first marker and the next one (the end of the output when
    there is no other marker); the web agent's directives, and the web
    searches it issues, are the non-empty trimmed lines of that block.
    When the marker occurs once, the block is all the text behind the
    marker. *)
Theorem forward_handoff_directives
  (env : Env) (query thread_id s : jsstring) :
  includes s PASS_TO_WEB_AGENT = true ->
  let before := text_before s PASS_TO_WEB_AGENT in
  let behind := text_after s PASS_TO_WEB_AGENT in
  let block := text_before behind PASS_TO_WEB_AGENT in
  let handoff :=
    stringify (Number_toString env)
      (enhancedQuery query (trim block) (trim before)) in
  s = before ++ PASS_TO_WEB_AGENT ++ behind
  /\ (forall j, (j < List.length before)%nat ->
                startsWith (skipn j s) PASS_TO_WEB_AGENT = false)
  /\ web_agent_calls
       (trace (callAgent_from env (Normal (Text s)) query thread_id))
     = [(handoff, s)]
  /\ JSON_parse handoff = Some (enhancedQuery query (trim block) (trim before))
  /\ searchQueries handoff = trimmed_lines block
  /\ searches_issued
       (trace (callAgent_from env (Normal (Text s)) query thread_id))
     = match new_clients env with
       | Normal _ => trimmed_lines block
       | Throw _ => []
       end
  /\ (includes behind PASS_TO_WEB_AGENT = false -> block = behind).
Proof.
  intros H before behind block handoff.
  assert (searchQueries handoff = trimmed_lines block) as Hq.
  { subst handoff. rewrite searchQueries_enhancedQuery.
    apply trimmed_lines_trim. }
  split; [exact (text_before_after _ _ H)|].
  split.
  { subst before. unfold text_before.
    destruct (proj1 (includes_indexOf _ _) H) as [i Hi]. rewrite Hi.
    intros j Hj. apply (proj2 (indexOf_leftmost _ _ _ Hi)).
    rewrite length_firstn in Hj. lia. }
  unfold callAgent_from. rewrite (callAgent_try_forward env _ _ _ H).
  fold before behind block handoff. unfold web_stage. cbn [trace].
  destruct (webSearchAgent_trace env handoff s thread_id) as [Hw Hs].
  cbn [web_agent_calls searches_issued]. rewrite Hw, Hs, Hq.
  split; [reflexivity|].
  split; [subst handoff; rewrite enhancedQuery_flat; apply parse_stringify_flat|].
  split; [reflexivity|]. split; [reflexivity|].
  intros Hn. subst block. apply text_before_absent. exact Hn.
Qed.

Lemma forward_handoff_directives_witness :
  includes one_marker_text PASS_TO_WEB_AGENT = true
  /\ searches_issued
       (trace (callAgent_from env_forward_once (Normal (Text one_marker_text))
                 brunch_query thread))
     = [js "Sunday Jazz Brunch Atlanta"; js "Apt 4B lounge"].
Proof.
  split; [reflexivity|].
  pose proof (forward_handoff_directives env_forward_once brunch_query thread
                one_marker_text eq_refl) as H.
  cbv zeta in H. destruct H as (_ & _ & _ & _ & _ & H & _).
  rewrite H. reflexivity.
Defined.

(** With two markers in the output, the text behind the second one is not
    part of the directive block; the summary in the handoff is trimmed. *)
Lemma forward_handoff_two_markers :
  includes two_marker_text PASS_TO_WEB_AGENT = true
  /\ snd (eventLookupAgent env_forward_twice brunch_query thread)
     = Text two_marker_text
  /\ web_agent_calls (trace (callAgent env_forward_twice brunch_query thread))
     = [(stringify (Number_toString env_forward_twice)
           (enhancedQuery brunch_query (js "first query") (js "Venue A")),
         two_marker_text)]
  /\ text_before two_marker_text PASS_TO_WEB_AGENT = js "Venue A" ++ [10]
  /\ searches_issued (trace (callAgent env_forward_twice brunch_query thread))
     = [js "first query"]
  /\ trimmed_lines (text_after two_marker_text PASS_TO_WEB_AGENT)
     = [js "first query"; PASS_TO_WEB_AGENT; js "second query"]
  /\ searches_issued (trace (callAgent env_forward_twice brunch_query thread))
     <> trimmed_lines (text_after two_marker_text PASS_TO_WEB_AGENT).
Proof.
  split; [reflexivity|]. split; [reflexivity|].
  split; [vm_compute; reflexivity|]. split; [vm_compute; reflexivity|].
  split; [vm_compute; reflexivity|]. split; [vm_compute; reflexivity|].
  vm_compute. discriminate.
Qed.

(** C2.  A retrieval output with neither marker is returned as it is, and
    the run issues no call of the web agent, no web search and no synthesis
    call. *)
Theorem plain_answer_returned_unmodified
  (env : Env) (query thread_id s : jsstring) :
  snd (eventLookupAgent env query thread_id) = Text s ->
  includes s PASS_TO_WEB_AGENT = false ->
  includes s NO_RESULTS_FOUND = false ->
  outcome (callAgent env query thread_id) = Normal (Text s)
  /\ trace (callAgent env query thread_id)
     = fst (eventLookupAgent env query thread_id)
  /\ web_agent_calls (trace (callAgent env query thread_id)) = []
  /\ searches_issued (trace (callAgent env query thread_id)) = []
  /\ synthesis_prompts (trace (callAgent env query thread_id)) = [].
Proof.
  intros Hs Hp Hn.
  assert (forallb retrieval_event (fst (eventLookupAgent env query thread_id))
          = true) as Hev by apply run_graph_events.
  unfold callAgent.
  destruct (eventLookupAgent env query thread_id) as [evs c].
  cbn [fst snd] in *. subst c.
  unfold callAgent_from. rewrite (callAgent_try_plain env _ _ _ Hp Hn).
  cbn [trace outcome]. rewrite app_nil_r.
  destruct (no_web_events evs Hev) as (H1 & H2 & H3).
  repeat split; assumption || reflexivity.
Qed.

Lemma plain_answer_returned_unmodified_witness :
  snd (eventLookupAgent env_asks_city brunch_query thread)
  = Text (js "Which city are you in?")
  /\ outcome (callAgent env_asks_city brunch_query thread)
     = Normal (Text (js "Which city are you in?")).
Proof.
  split; [reflexivity|].
  apply (plain_answer_returned_unmodified env_asks_city brunch_query thread
           (js "Which city are you in?")); reflexivity.
Defined.

(** C3.  When the forward marker is there but the text behind it has no
    non-empty trimmed line, the web agent is still called, with an empty
    [searchSummary]; its directive list is empty, it issues no web search
    and goes on to synthesis with an empty batch of results. *)
Theorem empty_directive_block_no_search
  (env : Env) (query thread_id s : jsstring) :
  includes s PASS_TO_WEB_AGENT = true ->
  trimmed_lines (text_after s PASS_TO_WEB_AGENT) = [] ->
  let handoff :=
    stringify (Number_toString env)
      (enhancedQuery query [] (trim (text_before s PASS_TO_WEB_AGENT))) in
  searchQueries handoff = []
  /\ trace (callAgent_from env (Normal (Text s)) query thread_id)
     = WebSearchAgentCalled handoff s
       :: match new_clients env with
          | Normal _ => [SynthesisInvoked (synthesis_prompt env handoff s [])]
          | Throw _ => []
          end
  /\ searches_issued
       (trace (callAgent_from env (Normal (Text s)) query thread_id)) = [].
Proof.
  intros H Hb handoff.
  pose proof (trimmed_lines_nil_all_white _ Hb) as Hw.
  assert (searchQueries handoff = []) as Hq.
  { subst handoff. rewrite searchQueries_enhancedQuery. reflexivity. }
  assert (trace (callAgent_from env (Normal (Text s)) query thread_id)
          = WebSearchAgentCalled handoff s
            :: web_trace (webSearchAgent env handoff s thread_id)) as Ht.
  { unfold callAgent_from. rewrite (callAgent_try_forward env _ _ _ H).
    rewrite (text_before_absent _ _ (all_white_no_marker _ Hw)).
    rewrite (trim_all_white _ Hw). reflexivity. }
  split; [exact Hq|]. rewrite Ht.
  destruct (new_clients env) as [u|e] eqn:Hc.
  - destruct (webSearchAgent_run env handoff s thread_id u Hc) as [-> _].
    rewrite Hq. split; reflexivity.
  - rewrite (webSearchAgent_rejects env _ _ _ e Hc). split; reflexivity.
Qed.

Lemma empty_directive_block_no_search_witness :
  includes empty_block_text PASS_TO_WEB_AGENT = true
  /\ trimmed_lines (text_after empty_block_text PASS_TO_WEB_AGENT) = []
  /\ searches_issued
       (trace (callAgent_from env_empty_block (Normal (Text empty_block_text))
                 brunch_query thread)) = [].
Proof.
  split; [reflexivity|]. split; [reflexivity|].
  apply (empty_directive_block_no_search env_empty_block brunch_query thread
           empty_block_text); reflexivity.
Defined.

(** With an empty block the summary does not become a directive: the web
    agent is called and issues no search at all. *)
Lemma empty_directive_block_no_fallback :
  includes empty_block_text PASS_TO_WEB_AGENT = true
  /\ trimmed_lines (text_after empty_block_text PASS_TO_WEB_AGENT) = []
  /\ snd (eventLookupAgent env_empty_block brunch_query thread)
     = Text empty_block_text
  /\ List.length
       (web_agent_calls (trace (callAgent env_empty_block brunch_query thread)))
     = 1%nat
  /\ searches_issued (trace (callAgent env_empty_block brunch_query thread))
     = []
  /\ searches_issued (trace (callAgent env_empty_block brunch_query thread))
     <> [trim (text_before empty_block_text PASS_TO_WEB_AGENT)].
Proof.
  split; [reflexivity|]. split; [reflexivity|]. split; [reflexivity|].
  split; [vm_compute; reflexivity|]. split; [vm_compute; reflexivity|].
  vm_compute. discriminate.
Qed.

(** * The retrieval loop *)

(** C4.  Whatever the model replies, a run of the lookup graph takes at
    most 15 steps, hence at most 15 model invocations and at most 15 rounds
    of tool execution, and a run that ends normally has taken fewer than
    15.  The agent function always returns a value, and when the run stops
    with an error, the step limit and the timeout included, that value is
    the no-results marker.  A model that asks for a tool on every reply
    ends this way: at the step limit, or at the timeout when that comes
    first; when every step is short enough for fifteen of them to fit in
    before the timeout, it is the step limit. *)
Theorem lookup_loop_step_ceiling (env : Env) (query thread_id : jsstring) :
  let run :=
    run_graph env recursionLimit agent 0
      (checkpoint env thread_id ++ [HumanMessage (Text query)]) in
  fst (eventLookupAgent env query thread_id) = graph_trace run
  /\ (tool_rounds (graph_trace run) <= 15)%nat
  /\ (model_invocations (graph_trace run) <= 15)%nat
  /\ (model_invocations (graph_trace run) + tool_rounds (graph_trace run)
      <= 15)%nat
  /\ match final_state run with
     | Throw _ =>
         snd (eventLookupAgent env query thread_id) = Text NO_RESULTS_FOUND
     | Normal messages =>
         (model_invocations (graph_trace run)
          + tool_rounds (graph_trace run) < 15)%nat
         /\ snd (eventLookupAgent env query thread_id)
            = match last (map Some messages) None with
              | Some m => content_of m
              | None => Text NO_RESULTS_FOUND
              end
     end
  /\ (always_requests_tools env ->
      (final_state run = Throw GraphRecursionError
       \/ final_state run = Throw TimeoutError)
      /\ snd (eventLookupAgent env query thread_id) = Text NO_RESULTS_FOUND
      /\ forall m,
           15 * m <= invoke_timeout -> steps_take_less env m ->
           final_state run = Throw GraphRecursionError).
Proof.
  intros run.
  destruct (run_steps_counts env recursionLimit 0 0
              (checkpoint env thread_id ++ [HumanMessage (Text query)]))
    as (Hm & Ht & _ & _ & Hn).
  specialize (Hn agent). fold (run_graph env recursionLimit agent 0
    (checkpoint env thread_id ++ [HumanMessage (Text query)])) in Hm, Ht, Hn.
  fold run in Hm, Ht, Hn. unfold recursionLimit in Hm, Ht, Hn.
  split; [reflexivity|].
  split; [lia|]. split; [lia|]. split; [lia|].
  split.
  - unfold eventLookupAgent. fold run. cbn [snd].
    destruct (final_state run) as [messages|e]; [|reflexivity].
    split; [exact (Hn messages eq_refl) | reflexivity].
  - intros Hg.
    pose proof (greedy_run_fails env recursionLimit Hg agent 0%nat 0
                  (checkpoint env thread_id ++ [HumanMessage (Text query)]))
      as Hf.
    fold (run_graph env recursionLimit agent 0
            (checkpoint env thread_id ++ [HumanMessage (Text query)])) in Hf.
    fold run in Hf. split; [exact Hf|]. split.
    + unfold eventLookupAgent. fold run. cbn [snd].
      destruct Hf as [-> | ->]; reflexivity.
    + intros m Hb Hs.
      apply (greedy_fast_run_fails env m recursionLimit Hg Hs).
      unfold recursionLimit. cbn [N.of_nat]. lia.
Qed.

Lemma env_greedy_always_requests_tools : always_requests_tools env_greedy.
Proof.
  intros call messages. exists greedy_reply. split; [reflexivity|discriminate].
Qed.

Lemma lookup_loop_step_ceiling_witness :
  always_requests_tools env_greedy
  /\ 15 * 4000 <= invoke_timeout
  /\ steps_take_less env_greedy 4000
  /\ final_state
       (run_graph env_greedy recursionLimit agent 0
          (checkpoint env_greedy thread ++ [HumanMessage (Text brunch_query)]))
     = Throw GraphRecursionError
  /\ snd (eventLookupAgent env_greedy brunch_query thread)
     = Text NO_RESULTS_FOUND.
Proof.
  assert (15 * 4000 <= invoke_timeout) as Hb by (vm_compute; discriminate).
  assert (steps_take_less env_greedy 4000) as Hs
      by (split; intros; reflexivity).
  split; [exact env_greedy_always_requests_tools|].
  split; [exact Hb|]. split; [exact Hs|].
  pose proof (lookup_loop_step_ceiling env_greedy brunch_query thread) as H.
  cbv zeta in H. destruct H as (_ & _ & _ & _ & _ & H).
  destruct (H env_greedy_always_requests_tools) as (_ & Hr & Hm).
  split; [exact (Hm 4000 Hb Hs) | exact Hr].
Defined.

(** The greedy model is cut off after eight model invocations and seven
    rounds of tool execution. *)
Example greedy_model_counts :
  model_invocations (fst (eventLookupAgent env_greedy brunch_query thread))
  = 8%nat
  /\ tool_rounds (fst (eventLookupAgent env_greedy brunch_query thread))
     = 7%nat.
Proof. split; vm_compute; reflexivity. Qed.

(** A final reply made by the last step the limit allows still ends the
    run in the step-limit error: with one step, a model that answers
    directly leaves no step over. *)
Example final_reply_at_the_limit :
  final_state (run_graph env_asks_city 1 agent 0
                 [HumanMessage (Text brunch_query)])
  = Throw GraphRecursionError
  /\ exists messages,
       final_state (run_graph env_asks_city 2 agent 0
                      [HumanMessage (Text brunch_query)])
       = Normal messages.
Proof. split; [reflexivity|]. eexists. reflexivity. Qed.

(** A slow greedy run is stopped by the timeout before the step limit. *)
Example slow_greedy_run_times_out :
  final_state (run_graph env_greedy_slow recursionLimit agent 0
                 [HumanMessage (Text brunch_query)])
  = Throw TimeoutError
  /\ snd (eventLookupAgent env_greedy_slow brunch_query thread)
     = Text NO_RESULTS_FOUND.
Proof. split; vm_compute; reflexivity. Qed.

(** * The web agent's output *)

(** C5.  When every web search fails or times out, the web agent hands the
    synthesis model a batch of error entries, one per directive.  Its output
    is the content of the model's reply, whatever that is, when the reply
    arrives within the synthesis deadline; when the model call fails or the
    deadline passes first, the output is the fallback text, a non-empty
    string that starts with the success marker. *)
Theorem verification_output_when_searches_fail
  (env : Env) (query dbResults thread_id : jsstring) :
  new_clients env = Normal tt ->
  all_searches_fail env 0 (searchQueries query) = true ->
  let entries := snd (search_loop env 0 (searchQueries query)) in
  let reply := synthesis env (synthesis_prompt env query dbResults entries) in
  forallb is_error_entry entries = true
  /\ List.length entries = List.length (searchQueries query)
  /\ settlement (web_promise (webSearchAgent env query dbResults thread_id))
     = match settlement reply with
       | Normal content =>
           if settles_after reply <? processing_timeout
           then Normal content
           else Normal (Text (fallback dbResults))
       | Throw _ => Normal (Text (fallback dbResults))
       end
  /\ startsWith (fallback dbResults) RECOMMENDATIONS = true
  /\ fallback dbResults <> [].
Proof.
  intros Hc Hf entries reply.
  split; [apply search_loop_all_fail; exact Hf|].
  split; [apply search_loop_entries|].
  split; [exact (proj2 (webSearchAgent_run env query dbResults thread_id tt Hc))|].
  apply fallback_marked.
Qed.

Lemma verification_output_when_searches_fail_witness :
  new_clients env_all_down = Normal tt
  /\ all_searches_fail env_all_down 0 (searchQueries brunch_query) = true
  /\ settlement
       (web_promise
          (webSearchAgent env_all_down brunch_query
             (js "No database results found.") thread))
     = Normal (Text (fallback (js "No database results found."))).
Proof.
  split; [reflexivity|]. split; [reflexivity|].
  pose proof (verification_output_when_searches_fail env_all_down brunch_query
                (js "No database results found.") thread eq_refl eq_refl) as H.
  cbv zeta in H. destruct H as (_ & _ & H & _).
  rewrite H. reflexivity.
Defined.

(** A reply of the synthesis model that does not start with the marker is
    the web agent's output as it stands. *)
Lemma synthesis_reply_unmarked :
  all_searches_fail env_unmarked_synthesis 0 (searchQueries brunch_query)
  = true
  /\ settlement
       (web_promise
          (webSearchAgent env_unmarked_synthesis brunch_query
             (js "No database results found.") thread))
     = Normal (Text (js "Sorry, none of these could be verified."))
  /\ startsWith (js "Sorry, none of these could be verified.")
       RECOMMENDATIONS = false.
Proof. repeat split; vm_compute; reflexivity. Qed.

(** C6.  When the retrieval output has the no-results marker and not the
    forward marker, the controller calls the web agent on the user's query
    with the fixed summary text.  Its output is the web agent's output when
    that arrives within the stage deadline; the fixed nothing-found text is
    returned when the web agent rejects or the stage deadline passes first.
    Failing web searches do not make the web agent reject. *)
Theorem no_results_web_only_outcome
  (env : Env) (query thread_id s : jsstring) :
  includes s PASS_TO_WEB_AGENT = false ->
  includes s NO_RESULTS_FOUND = true ->
  let web :=
    webSearchAgent env query (js "No database results found.") thread_id in
  trace (callAgent_from env (Normal (Text s)) query thread_id)
  = WebSearchAgentCalled query (js "No database results found.")
    :: web_trace web
  /\ outcome (callAgent_from env (Normal (Text s)) query thread_id)
     = match settlement (web_promise web) with
       | Normal out =>
           if settles_after (web_promise web) <? web_search_process_timeout
           then Normal out
           else Normal (Text nothing_found)
       | Throw _ => Normal (Text nothing_found)
       end
  /\ match new_clients env with
     | Normal _ => exists out, settlement (web_promise web) = Normal out
     | Throw e => settlement (web_promise web) = Throw e
     end.
Proof.
  intros Hp Hn web. unfold callAgent_from.
  rewrite (callAgent_try_no_results env _ _ _ Hp Hn).
  split; [reflexivity|]. split.
  - cbn [outcome].
    pose proof (web_stage_outcome env query (js "No database results found.")
                  thread_id nothing_found) as Ho.
    cbv zeta in Ho. fold web in Ho. rewrite Ho.
    destruct (settlement (web_promise web));
      [destruct (_ <? _)|]; reflexivity.
  - destruct (new_clients env) as [u|e] eqn:Hc.
    + destruct (webSearchAgent_run env query
                  (js "No database results found.") thread_id u Hc)
        as [_ Hs].
      fold web in Hs. rewrite Hs.
      destruct (settlement (synthesis env _));
        [destruct (_ <? _)|]; eexists; reflexivity.
    + subst web. rewrite (webSearchAgent_rejects env _ _ _ e Hc). reflexivity.
Qed.

Lemma no_results_web_only_outcome_witness :
  includes NO_RESULTS_FOUND PASS_TO_WEB_AGENT = false
  /\ includes NO_RESULTS_FOUND NO_RESULTS_FOUND = true
  /\ outcome (callAgent_from env_all_down (Normal (Text NO_RESULTS_FOUND))
                brunch_query thread)
     = Normal (Text (fallback (js "No database results found."))).
Proof.
  split; [reflexivity|]. split; [reflexivity|].
  pose proof (no_results_web_only_outcome env_all_down brunch_query thread
                NO_RESULTS_FOUND eq_refl eq_refl) as H.
  cbv zeta in H. destruct H as (_ & H & _).
  rewrite H. reflexivity.
Defined.

(** With every web search failing, the controller's output is what the web
    agent made of the failures, not the nothing-found text. *)
Lemma no_results_not_nothing_found :
  snd (eventLookupAgent env_unmarked_synthesis brunch_query thread)
  = Text NO_RESULTS_FOUND
  /\ web_agent_calls
       (trace (callAgent env_unmarked_synthesis brunch_query thread))
     = [(brunch_query, js "No database results found.")]
  /\ all_searches_fail env_unmarked_synthesis 0 (searchQueries brunch_query)
     = true
  /\ outcome (callAgent env_unmarked_synthesis brunch_query thread)
     = Normal (Text (js "Sorry, none of these could be verified."))
  /\ outcome (callAgent env_unmarked_synthesis brunch_query thread)
     <> Normal (Text nothing_found).
Proof.
  split; [reflexivity|]. split; [vm_compute; reflexivity|].
  split; [reflexivity|]. split; [vm_compute; reflexivity|].
  vm_compute. discriminate.
Qed.

(** * The controller boundary *)

(** C7.  The controller returns a value on every run: from the point where
    the lookup agent's promise settles, whatever is thrown inside the outer
    try block, a rejection of that promise included, is answered by the
    fixed apology; nothing is thrown to the caller.  When the lookup agent
    has answered, what the try block computes is the result. *)
Theorem controller_never_throws
  (env : Env) (awaited : Completion Content) (query thread_id : jsstring) :
  (exists v, outcome (callAgent env query thread_id) = Normal v)
  /\ (exists v,
         outcome (callAgent_from env awaited query thread_id) = Normal v)
  /\ match outcome (callAgent_try env awaited query thread_id) with
     | Throw _ =>
         outcome (callAgent_from env awaited query thread_id)
         = Normal (Text apology)
     | Normal v =>
         outcome (callAgent_from env awaited query thread_id) = Normal v
     end
  /\ (forall e,
         outcome (callAgent_from env (Throw e) query thread_id)
         = Normal (Text apology))
  /\ (forall c,
         outcome (callAgent_from env (Normal c) query thread_id)
         = outcome (callAgent_try env (Normal c) query thread_id)).
Proof.
  assert (forall a, exists v,
             outcome (callAgent_from env a query thread_id) = Normal v) as H.
  { intros a. unfold callAgent_from. cbn [outcome].
    destruct (outcome (callAgent_try env a query thread_id));
      eexists; reflexivity. }
  split.
  - unfold callAgent.
    destruct (eventLookupAgent env query thread_id) as [evs c].
    cbn [outcome]. apply H.
  - split; [apply H|]. split.
    + unfold callAgent_from. cbn [outcome].
      destruct (outcome (callAgent_try env awaited query thread_id));
        reflexivity.
    + split; [intros e; reflexivity|].
      intros c. unfold callAgent_from. cbn [outcome].
      destruct (callAgent_try_returns env c query thread_id) as [v ->].
      reflexivity.
Qed.

(** * Deadlines *)

(** C8.  The deadlines are 10 seconds for one web search, 15 seconds for
    the synthesis call and 45 seconds for the web stage, and these are the
    values the three races run against. *)
Theorem configured_deadlines :
  search_timeout = 10 * 1000
  /\ processing_timeout = 15 * 1000
  /\ web_search_process_timeout = 45 * 1000
  /\ (forall env i q,
         fst (search_one env i q)
         = N.min (settles_after (tavily env i q)) (10 * 1000))
  /\ (forall env prompt dbResults,
         settles_after
           (race (processPromise env prompt dbResults) processing_timeout
              (js "Processing timeout"))
         = N.min (settles_after (synthesis env prompt)) (15 * 1000))
  /\ (forall env query dbResults thread_id otherwise,
         let web := web_promise (webSearchAgent env query dbResults thread_id) in
         outcome (web_stage env query dbResults thread_id otherwise)
         = if settles_after web <? 45 * 1000
           then match settlement web with
                | Normal out => Normal out
                | Throw _ => Normal (Text otherwise)
                end
           else Normal (Text otherwise)).
Proof.
  split; [reflexivity|]. split; [reflexivity|]. split; [reflexivity|].
  split; [|split].
  - intros env i q. unfold search_one, race. cbn [fst].
    change (10 * 1000) with search_timeout.
    destruct (N.ltb_spec (settles_after (tavily env i q)) search_timeout);
      cbn [settles_after]; lia.
  - intros env prompt dbResults. unfold race, processPromise.
    cbn [settles_after]. change (15 * 1000) with processing_timeout.
    destruct (N.ltb_spec (settles_after (synthesis env prompt))
                processing_timeout); cbn [settles_after]; lia.
  - intros env query dbResults thread_id otherwise web.
    pose proof (web_stage_outcome env query dbResults thread_id otherwise)
      as H.
    cbv zeta in H. fold web in H. rewrite H.
    change (45 * 1000) with web_search_process_timeout.
    destruct (settlement web); destruct (_ <? _); reflexivity.
Qed.

(** * The lookup tool *)

(** C9.  An empty result of the vector store and an error of the vector
    store both give a JSON object whose [message] member is the no-results
    marker; the error's object has a second member, [error], that carries
    the error's message, so the two tool results are different texts. *)
Theorem lookup_tool_no_results_signal
  (env_empty env_error : Env) (query : jsstring) (n : number) (e : Error) :
  similaritySearchWithScore env_empty query n = Normal (Some []) ->
  similaritySearchWithScore env_error query n = Throw e ->
  JSON_parse (eventLookupTool env_empty query n)
  = Some (JObject [(js "message", JString NO_RESULTS_FOUND)])
  /\ JSON_parse (eventLookupTool env_error query n)
     = Some (JObject [(js "message", JString NO_RESULTS_FOUND);
                      (js "error", JString (message e))])
  /\ eventLookupTool env_empty query n <> eventLookupTool env_error query n.
Proof.
  intros H1 H2.
  assert (JSON_parse (eventLookupTool env_empty query n)
          = Some (JObject [(js "message", JString NO_RESULTS_FOUND)])) as P1.
  { unfold eventLookupTool. rewrite H1.
    exact (parse_stringify_flat (Number_toString env_empty)
             [(js "message", NO_RESULTS_FOUND)]). }
  assert (JSON_parse (eventLookupTool env_error query n)
          = Some (JObject [(js "message", JString NO_RESULTS_FOUND);
                           (js "error", JString (message e))])) as P2.
  { unfold eventLookupTool. rewrite H2.
    exact (parse_stringify_flat (Number_toString env_error)
             [(js "message", NO_RESULTS_FOUND); (js "error", message e)]). }
  split; [exact P1|]. split; [exact P2|].
  intros Heq. rewrite Heq, P2 in P1. discriminate.
Qed.

Lemma lookup_tool_no_results_signal_witness :
  similaritySearchWithScore env_store_empty brunch_query ten
  = Normal (Some [])
  /\ similaritySearchWithScore (env_store_down (js "connection refused"))
       brunch_query ten
     = Throw {| message := js "connection refused" |}
  /\ eventLookupTool env_store_empty brunch_query ten
     <> eventLookupTool (env_store_down (js "connection refused"))
          brunch_query ten.
Proof.
  split; [reflexivity|]. split; [reflexivity|].
  apply (lookup_tool_no_results_signal env_store_empty
           (env_store_down (js "connection refused")) brunch_query ten
           {| message := js "connection refused" |}); reflexivity.
Defined.

(** The tool result of a failing vector store shows the failure. *)
Lemma lookup_tool_error_distinguishable :
  similaritySearchWithScore env_store_empty brunch_query ten
  = Normal (Some [])
  /\ similaritySearchWithScore (env_store_down (js "connection refused"))
       brunch_query ten
     = Throw {| message := js "connection refused" |}
  /\ eventLookupTool env_store_empty brunch_query ten
     = [123; 34] ++ js "message" ++ [34; 58; 34] ++ NO_RESULTS_FOUND
       ++ [34; 125]
  /\ eventLookupTool (env_store_down (js "connection refused"))
       brunch_query ten
     = [123; 34] ++ js "message" ++ [34; 58; 34] ++ NO_RESULTS_FOUND
       ++ [34; 44; 34] ++ js "error" ++ [34; 58; 34]
       ++ js "connection refused" ++ [34; 125]
  /\ eventLookupTool (env_store_down (js "connection refused"))
       brunch_query ten
     <> eventLookupTool env_store_empty brunch_query ten.
Proof.
  split; [reflexivity|]. split; [reflexivity|].
  split; [vm_compute; reflexivity|]. split; [vm_compute; reflexivity|].
  vm_compute. discriminate.
Qed.

(** * Directives of a raw query *)

Lemma searchQueries_unparseable (query : jsstring) :
  JSON_parse query = None -> searchQueries query = [query].
Proof. intros H. unfold searchQueries. rewrite H. reflexivity. Qed.

Lemma searchQueries_null (query : jsstring) :
  JSON_parse query = Some JNull -> searchQueries query = [query].
Proof. intros H. unfold searchQueries. rewrite H. reflexivity. Qed.

(** C10.  A raw query that is JSON text for a value other than [null], and
    whose [searchSummary] is absent or falsy, gives the web agent an empty
    directive list: no web search is issued and the synthesis prompt is
    built on an empty batch of results.  A query that is not JSON text, or
    that is JSON text for [null], is itself the only directive. *)
Theorem json_query_without_summary
  (env : Env) (query dbResults thread_id : jsstring)
  (v : json) (summary : option json) :
  JSON_parse query = Some v ->
  read_searchSummary v = Normal summary ->
  ToBoolean summary = false ->
  searchQueries query = []
  /\ searches_issued (web_trace (webSearchAgent env query dbResults thread_id))
     = []
  /\ synthesis_prompts
       (web_trace (webSearchAgent env query dbResults thread_id))
     = match new_clients env with
       | Normal _ => [synthesis_prompt env query dbResults []]
       | Throw _ => []
       end
  /\ (forall raw,
         JSON_parse raw = None \/ JSON_parse raw = Some JNull ->
         searchQueries raw = [raw]).
Proof.
  intros Hp Hr Hb.
  assert (searchQueries query = []) as Hq.
  { unfold searchQueries. rewrite Hp, Hr, Hb. reflexivity. }
  split; [exact Hq|].
  assert (forall raw,
             JSON_parse raw = None \/ JSON_parse raw = Some JNull ->
             searchQueries raw = [raw]) as Hraw.
  { intros raw [H|H];
      [apply searchQueries_unparseable | apply searchQueries_null]; exact H. }
  destruct (new_clients env) as [u|e] eqn:Hc.
  - destruct (webSearchAgent_run env query dbResults thread_id u Hc)
      as [-> _].
    rewrite Hq. repeat split; [exact Hraw].
  - rewrite (webSearchAgent_rejects env _ _ _ e Hc).
    repeat split; [exact Hraw].
Qed.

Lemma json_query_without_summary_witness :
  JSON_parse (js "42")
  = Some (JNumber {| negative := false; mantissa := 42; exponent10 := 0 |})
  /\ searches_issued
       (web_trace
          (webSearchAgent env_all_down (js "42")
             (js "No database results found.") thread))
     = [].
Proof.
  split; [reflexivity|].
  apply (json_query_without_summary env_all_down (js "42")
           (js "No database results found.") thread
           (JNumber {| negative := false; mantissa := 42; exponent10 := 0 |})
           None); reflexivity.
Defined.

(** The text [null] is JSON, has no truthy [searchSummary], and yet is
    searched for: reading a property of [null] throws inside the [try]. *)
Lemma json_null_query_is_directive :
  JSON_parse (js "null") = Some JNull
  /\ searchQueries (js "null") = [js "null"]
  /\ searches_issued
       (web_trace
          (webSearchAgent env_all_down (js "null")
             (js "No database results found.") thread))
     = [js "null"]
  /\ searchQueries (js "null") <> [].
Proof.
  split; [reflexivity|]. split; [reflexivity|].
  split; [vm_compute; reflexivity|]. discriminate.
Qed.

(** * More on the retrieval loop *)

Section LoopFacts.

Variable env : Env.

Lemma callModel_reply (call : nat) (messages update : list Message) :
  callModel env call messages = Normal update ->
  exists r, chat_model env call messages = Normal r
            /\ update = [AIMessage r].
Proof.
  unfold callModel. destruct (chat_model env call messages) as [r|e];
    [|discriminate].
  intros H. injection H as <-. exists r. split; reflexivity.
Qed.

Lemma shouldContinue_end (messages : list Message) (r : AIReply) :
  shouldContinue (messages ++ [AIMessage r]) = to_end -> tool_calls r = [].
Proof.
  unfold shouldContinue. rewrite last_tool_calls_reply.
  destruct (tool_calls r); [reflexivity | discriminate].
Qed.

(** A run that ends normally ends on a reply of the model that asks for no
    tool, put behind the history the model saw. *)
Lemma run_steps_final_reply (budget : nat) :
  forall (node : Node) (call : nat) (elapsed : N)
         (messages final : list Message),
    final_state (run_steps env budget node call elapsed messages)
    = Normal final ->
    exists k history r,
      chat_model env k history = Normal r
      /\ tool_calls r = []
      /\ final = history ++ [AIMessage r]
      /\ exists added, history = messages ++ added.
Proof.
  induction budget as [|b IH]; intros node call elapsed messages final H;
    [discriminate|].
  cbn [run_steps] in H. destruct node.
  - destruct (_ <? invoke_timeout); [|discriminate].
    destruct (callModel env call messages) as [update|e] eqn:Hm;
      [|discriminate].
    destruct (callModel_reply _ _ _ Hm) as (r & Hr & ->).
    destruct (shouldContinue (messages ++ [AIMessage r])) eqn:Hs.
    + cbn [after final_state] in H.
      destruct (IH _ _ _ _ _ H)
        as (k & history & r' & Hk & Hc & Hf & added & Ha).
      exists k, history, r'. repeat split; try assumption.
      exists ([AIMessage r] ++ added). rewrite Ha, app_assoc. reflexivity.
    + destruct b; [discriminate|].
      cbn [after final_state] in H. injection H as <-.
      exists call, messages, r. repeat split; try assumption.
      * exact (shouldContinue_end _ _ Hs).
      * exists []. rewrite app_nil_r. reflexivity.
  - destruct (toolNode env (last_tool_calls messages)) as [evs out].
    destruct (_ <? invoke_timeout); [|discriminate].
    cbn [after final_state] in H.
    destruct (IH _ _ _ _ _ H)
      as (k & history & r' & Hk & Hc & Hf & added & Ha).
    exists k, history, r'. repeat split; try assumption.
    exists (out ++ added). rewrite Ha, app_assoc. reflexivity.
Qed.

Lemma run_graph_final_reply (budget : nat) :
  forall (node : Node) (call : nat) (messages final : list Message),
    final_state (run_graph env budget node call messages) = Normal final ->
    exists k history r,
      chat_model env k history = Normal r
      /\ tool_calls r = []
      /\ final = history ++ [AIMessage r]
      /\ exists added, history = messages ++ added.
Proof.
  intros node call messages final. apply run_steps_final_reply.
Qed.

End LoopFacts.

(** X1.  The message list of a run only grows: when a run of the lookup
    graph ends normally, its final messages are the messages it started
    from, in their order, followed by what the run added. *)
Theorem run_appends_to_history
  (env : Env) (budget : nat) (node : Node) (call : nat)
  (messages final : list Message) :
  final_state (run_graph env budget node call messages) = Normal final ->
  exists added,
    final = messages ++ added
    /\ (List.length messages < List.length final)%nat.
Proof.
  intros H.
  destruct (run_graph_final_reply env budget node call messages final H)
    as (k & history & r & _ & _ & -> & added & ->).
  exists (added ++ [AIMessage r]). split.
  - rewrite app_assoc. reflexivity.
  - rewrite !length_app. cbn [List.length]. lia.
Qed.

Lemma run_appends_to_history_witness :
  final_state
    (run_graph env_asks_city recursionLimit agent 0
       [HumanMessage (Text brunch_query)])
  = Normal [HumanMessage (Text brunch_query);
            AIMessage (plain_reply (js "Which city are you in?"))]
  /\ exists added,
       [HumanMessage (Text brunch_query);
        AIMessage (plain_reply (js "Which city are you in?"))]
       = [HumanMessage (Text brunch_query)] ++ added
       /\ (1 < 2)%nat.
Proof.
  split; [reflexivity|].
  exact (run_appends_to_history env_asks_city recursionLimit agent 0%nat
           [HumanMessage (Text brunch_query)] _ eq_refl).
Defined.

(** X2.  When the lookup run ends normally, what the lookup agent returns
    is the content of a reply the model gave on the history so far, that
    reply asks for no tool, and the history it was given starts with the
    thread's saved messages and the user's query. *)
Theorem lookup_returns_last_reply
  (env : Env) (query thread_id : jsstring) (final : list Message) :
  final_state
    (run_graph env recursionLimit agent 0
       (checkpoint env thread_id ++ [HumanMessage (Text query)]))
  = Normal final ->
  exists k history r,
    chat_model env k history = Normal r
    /\ tool_calls r = []
    /\ final = history ++ [AIMessage r]
    /\ (exists added,
           history
           = (checkpoint env thread_id ++ [HumanMessage (Text query)])
             ++ added)
    /\ snd (eventLookupAgent env query thread_id) = reply_content r.
Proof.
  intros H.
  destruct (run_graph_final_reply env _ _ _ _ _ H)
    as (k & history & r & Hk & Hc & Hf & Ha).
  exists k, history, r. repeat split; try assumption.
  unfold eventLookupAgent. cbn [snd]. rewrite H, Hf, map_app. cbn [map].
  rewrite last_last. reflexivity.
Qed.

Lemma lookup_returns_last_reply_witness :
  final_state
    (run_graph env_asks_city recursionLimit agent 0
       (checkpoint env_asks_city thread ++ [HumanMessage (Text brunch_query)]))
  = Normal [HumanMessage (Text brunch_query);
            AIMessage (plain_reply (js "Which city are you in?"))]
  /\ exists r,
       tool_calls r = []
       /\ snd (eventLookupAgent env_asks_city brunch_query thread)
          = reply_content r.
Proof.
  split; [reflexivity|].
  destruct (lookup_returns_last_reply env_asks_city brunch_query thread _
              eq_refl) as (k & history & r & _ & Hc & _ & _ & Hr).
  exists r. split; assumption.
Defined.

(** * A failed retrieval *)

Lemma no_results_marker_routes :
  includes NO_RESULTS_FOUND PASS_TO_WEB_AGENT = false
  /\ includes NO_RESULTS_FOUND NO_RESULTS_FOUND = true.
Proof. split; reflexivity. Qed.

(** X3.  A lookup run that ends with an error (a throwing model call, the
    step limit) is handled by the controller like an empty database: the
    web agent is called once, on the user's query and the fixed summary
    text, and the web stage decides the output. *)
Theorem failed_retrieval_goes_web_only
  (env : Env) (query thread_id : jsstring) (e : Error) :
  final_state
    (run_graph env recursionLimit agent 0
       (checkpoint env thread_id ++ [HumanMessage (Text query)]))
  = Throw e ->
  snd (eventLookupAgent env query thread_id) = Text NO_RESULTS_FOUND
  /\ web_agent_calls (trace (callAgent env query thread_id))
     = [(query, js "No database results found.")]
  /\ callAgent env query thread_id
     = {| trace :=
            fst (eventLookupAgent env query thread_id)
            ++ trace (web_stage env query (js "No database results found.")
                        thread_id nothing_found);
          outcome :=
            outcome (web_stage env query (js "No database results found.")
                       thread_id nothing_found) |}.
Proof.
  intros H.
  assert (snd (eventLookupAgent env query thread_id) = Text NO_RESULTS_FOUND)
    as Hl.
  { unfold eventLookupAgent. cbn [snd]. rewrite H. reflexivity. }
  assert (forallb retrieval_event (fst (eventLookupAgent env query thread_id))
          = true) as Hev by apply run_graph_events.
  destruct no_results_marker_routes as [Hp Hn].
  split; [exact Hl|].
  rewrite callAgent_decompose, Hl. unfold callAgent_from.
  rewrite (callAgent_try_no_results env _ _ _ Hp Hn). cbn [trace outcome].
  split.
  - unfold web_stage. cbn [trace].
    destruct (no_web_events _ Hev) as (Hw & _ & _).
    assert (forall a b, web_agent_calls (a ++ b)
                        = web_agent_calls a ++ web_agent_calls b) as Happ.
    { induction a as [|x a IHa]; intros b; [reflexivity|].
      destruct x; cbn; rewrite ?IHa; reflexivity. }
    rewrite Happ, Hw. cbn [app web_agent_calls].
    rewrite (proj1 (webSearchAgent_trace env _ _ _)). reflexivity.
  - f_equal. destruct (outcome (web_stage _ _ _ _ _)) eqn:E; [reflexivity|].
    destruct (web_stage_returns env query (js "No database results found.")
                thread_id nothing_found) as [v Hv].
    congruence.
Qed.

Lemma failed_retrieval_goes_web_only_witness :
  final_state
    (run_graph env_greedy recursionLimit agent 0
       (checkpoint env_greedy thread ++ [HumanMessage (Text brunch_query)]))
  = Throw GraphRecursionError
  /\ web_agent_calls (trace (callAgent env_greedy brunch_query thread))
     = [(brunch_query, js "No database results found.")].
Proof.
  assert (final_state
            (run_graph env_greedy recursionLimit agent 0
               (checkpoint env_greedy thread
                ++ [HumanMessage (Text brunch_query)]))
          = Throw GraphRecursionError) as H by (vm_compute; reflexivity).
  split; [exact H|].
  exact (proj1 (proj2 (failed_retrieval_goes_web_only env_greedy brunch_query
                         thread GraphRecursionError H))).
Defined.

(** * The shape of the directives *)

Section DirectiveFacts.

Lemma all_white_rev (s : jsstring) : all_white (rev s) = all_white s.
Proof.
  unfold all_white. induction s as [|c s IH]; [reflexivity|].
  cbn [rev forallb]. rewrite forallb_app, IH. cbn [forallb].
  rewrite andb_true_r. apply andb_comm.
Qed.

(** [trimEnd] from the left. *)
Lemma trimEnd_cons (c : code_unit) (s : jsstring) :
  trimEnd (c :: s)
  = if all_white s
    then (if is_white_space c then [] else [c])
    else c :: trimEnd s.
Proof.
  unfold trimEnd. cbn [rev]. rewrite trimStart_snoc, all_white_rev.
  destruct (all_white s).
  - destruct (is_white_space c); reflexivity.
  - rewrite rev_app_distr. reflexivity.
Qed.

Lemma trimStart_visible (c : code_unit) (s : jsstring) :
  is_white_space c = false -> trimStart (c :: s) = c :: s.
Proof. intros H. cbn [trimStart]. rewrite H. reflexivity. Qed.

Lemma trimStart_idempotent (s : jsstring) :
  trimStart (trimStart s) = trimStart s.
Proof.
  induction s as [|c s IH]; [reflexivity|].
  cbn [trimStart]. destruct (is_white_space c) eqn:E; [exact IH|].
  apply trimStart_visible. exact E.
Qed.

Lemma trimEnd_idempotent (s : jsstring) : trimEnd (trimEnd s) = trimEnd s.
Proof.
  unfold trimEnd. rewrite rev_involutive, trimStart_idempotent. reflexivity.
Qed.

(** What [trimStart] leaves is empty or starts with a visible code unit,
    and [trimEnd] does not touch that one. *)
Lemma trimStart_trimEnd_trimStart (s : jsstring) :
  trimStart (trimEnd (trimStart s)) = trimEnd (trimStart s).
Proof.
  induction s as [|c s IH]; [reflexivity|].
  cbn [trimStart]. destruct (is_white_space c) eqn:E; [exact IH|].
  rewrite trimEnd_cons, E.
  destruct (all_white s); apply trimStart_visible; exact E.
Qed.

Lemma trim_idempotent (s : jsstring) : trim (trim s) = trim s.
Proof.
  unfold trim. rewrite trimStart_trimEnd_trimStart. apply trimEnd_idempotent.
Qed.

Lemma trimStart_keeps_out (c : code_unit) (s : jsstring) :
  existsb (N.eqb c) s = false -> existsb (N.eqb c) (trimStart s) = false.
Proof.
  induction s as [|x s IH]; [reflexivity|].
  cbn [existsb trimStart]. intros H. apply orb_false_iff in H.
  destruct H as [Hx Hs].
  destruct (is_white_space x); [exact (IH Hs)|].
  cbn [existsb]. rewrite Hx, Hs. reflexivity.
Qed.

Lemma existsb_rev_eq (c : N) (s : list N) :
  existsb (N.eqb c) (rev s) = existsb (N.eqb c) s.
Proof.
  induction s as [|x s IH]; [reflexivity|].
  cbn [rev existsb]. rewrite existsb_app, IH. cbn [existsb].
  rewrite orb_false_r. apply orb_comm.
Qed.

Lemma trim_keeps_out (c : code_unit) (s : jsstring) :
  existsb (N.eqb c) s = false -> existsb (N.eqb c) (trim s) = false.
Proof.
  intros H. unfold trim, trimEnd. rewrite existsb_rev_eq.
  apply trimStart_keeps_out. rewrite existsb_rev_eq.
  apply trimStart_keeps_out. exact H.
Qed.

(** No piece of a split on the line feed holds a line feed. *)
Lemma lines_hold_no_newline (s : jsstring) :
  forallb (fun p => negb (existsb (N.eqb 10) p)) (split s [10]) = true.
Proof.
  induction s as [|c s IH]; [reflexivity|].
  rewrite lines_cons. destruct (10 =? c) eqn:E.
  - cbn [forallb existsb negb andb]. exact IH.
  - destruct (split s [10]) as [|p ps];
      cbn [cons_head forallb existsb] in *; rewrite E;
      [reflexivity | exact IH].
Qed.

End DirectiveFacts.

(** X4.  Every directive read out of a search summary is a non-empty
    string without white space at either end and without a line feed
    inside. *)
Theorem directives_are_clean_lines (text : jsstring) :
  forallb
    (fun d => nonempty d && jsstring_eqb (trim d) d
              && negb (existsb (N.eqb 10) d))
    (trimmed_lines text) = true.
Proof.
  unfold trimmed_lines.
  pose proof (lines_hold_no_newline text) as H.
  induction (split text [10]) as [|p ps IH]; [reflexivity|].
  cbn [forallb] in H. apply andb_true_iff in H. destruct H as [Hp Hps].
  cbn [map filter]. destruct (nonempty (trim p)) eqn:E; [|exact (IH Hps)].
  cbn [forallb]. rewrite E, trim_idempotent, (IH Hps).
  assert (forall a, jsstring_eqb a a = true) as Hrefl.
  { induction a as [|x a IHa]; [reflexivity|].
    cbn [jsstring_eqb]. rewrite N.eqb_refl. exact IHa. }
  rewrite Hrefl. apply negb_true_iff in Hp.
  rewrite (trim_keeps_out _ _ Hp). reflexivity.
Qed.

(** * The search loop and the web stage *)

Section SearchFacts.

Variable env : Env.

Lemma search_one_query (i : nat) (q : jsstring) :
  entry_query (snd (search_one env i q)) = Some q.
Proof.
  unfold search_one. cbn [snd].
  destruct (settlement (race _ _ _)); reflexivity.
Qed.

Lemma search_one_time (i : nat) (q : jsstring) :
  fst (search_one env i q) <= search_timeout.
Proof.
  unfold search_one, race. cbn [fst].
  destruct (N.ltb_spec (settles_after (tavily env i q)) search_timeout);
    cbn [settles_after]; lia.
Qed.

(** The loop is one [search_one] per directive, by position. *)
Lemma search_loop_nth (queries : list jsstring) :
  forall i k,
    nth_error (snd (search_loop env i queries)) k
    = option_map (fun q => snd (search_one env (i + k) q))
        (nth_error queries k).
Proof.
  induction queries as [|q rest IH]; intros i k.
  - destruct k; reflexivity.
  - cbn [search_loop]. specialize (IH (S i)).
    destruct (search_one env i q) as [dt entry] eqn:E.
    destruct (search_loop env (S i) rest) as [[evs t] entries].
    cbn [snd] in *. destruct k as [|k].
    + cbn [nth_error option_map]. rewrite Nat.add_0_r, E. reflexivity.
    + cbn [nth_error]. rewrite IH.
      replace (S i + k)%nat with (i + S k)%nat by lia. reflexivity.
Qed.

Lemma search_loop_queries (queries : list jsstring) :
  forall i,
    map entry_query (snd (search_loop env i queries)) = map Some queries.
Proof.
  induction queries as [|q rest IH]; intros i; [reflexivity|].
  cbn [search_loop]. specialize (IH (S i)).
  pose proof (search_one_query i q) as Hq.
  destruct (search_one env i q) as [dt entry].
  destruct (search_loop env (S i) rest) as [[evs t] entries].
  cbn [snd map] in *. rewrite Hq, IH. reflexivity.
Qed.

Lemma search_loop_time (queries : list jsstring) :
  forall i,
    snd (fst (search_loop env i queries))
    <= search_timeout * N.of_nat (List.length queries).
Proof.
  induction queries as [|q rest IH]; intros i; [apply N.le_0_l|].
  cbn [search_loop]. specialize (IH (S i)).
  pose proof (search_one_time i q) as Hq.
  destruct (search_one env i q) as [dt entry].
  destruct (search_loop env (S i) rest) as [[evs t] entries].
  cbn [fst snd List.length] in *. lia.
Qed.

Lemma webSearchAgent_time (query dbResults thread_id : jsstring) :
  settles_after (web_promise (webSearchAgent env query dbResults thread_id))
  <= search_timeout * N.of_nat (List.length (searchQueries query))
     + processing_timeout.
Proof.
  unfold webSearchAgent. destruct (new_clients env) as [u|e].
  - pose proof (search_loop_time (searchQueries query) 0%nat) as Ht.
    destruct (search_loop env 0 (searchQueries query)) as [[evs t] entries].
    cbn [fst snd] in Ht. cbn [web_promise settles_after].
    assert (forall p : Promise Content,
               settles_after (race p processing_timeout
                                (js "Processing timeout"))
               <= processing_timeout) as Hr.
    { intros p. unfold race.
      destruct (N.ltb_spec (settles_after p) processing_timeout);
        cbn [settles_after]; lia. }
    specialize (Hr (processPromise env
                      (synthesis_prompt env query dbResults entries)
                      dbResults)).
    lia.
  - cbn [web_promise settles_after]. lia.
Qed.

Lemma webSearchAgent_resolves (query dbResults thread_id : jsstring)
  (u : unit) :
  new_clients env = Normal u ->
  exists out,
    settlement (web_promise (webSearchAgent env query dbResults thread_id))
    = Normal out.
Proof.
  intros Hc.
  destruct (webSearchAgent_run env query dbResults thread_id u Hc) as [_ ->].
  destruct (settlement (synthesis env _)); [destruct (_ <? _)|];
    eexists; reflexivity.
Qed.

(** With at most two directives the stage timer cannot win. *)
Lemma web_stage_in_time (query dbResults thread_id otherwise : jsstring)
  (u : unit) :
  new_clients env = Normal u ->
  (List.length (searchQueries query) <= 2)%nat ->
  outcome (web_stage env query dbResults thread_id otherwise)
  = settlement (web_promise (webSearchAgent env query dbResults thread_id)).
Proof.
  intros Hc Hn.
  pose proof (web_stage_outcome env query dbResults thread_id otherwise) as Ho.
  cbv zeta in Ho. rewrite Ho.
  destruct (webSearchAgent_resolves query dbResults thread_id u Hc)
    as [out ->].
  pose proof (webSearchAgent_time query dbResults thread_id) as Ht.
  unfold search_timeout, processing_timeout in Ht.
  destruct (N.ltb_spec
              (settles_after
                 (web_promise (webSearchAgent env query dbResults thread_id)))
              web_search_process_timeout) as [_|Hge]; [reflexivity|].
  unfold web_search_process_timeout in Hge. lia.
Qed.

Lemma web_trace_shape (query dbResults thread_id : jsstring) :
  exists searches prompts,
    web_trace (webSearchAgent env query dbResults thread_id)
    = map TavilyInvoked searches ++ map SynthesisInvoked prompts
    /\ (List.length prompts <= 1)%nat.
Proof.
  destruct (new_clients env) as [u|e] eqn:Hc.
  - destruct (webSearchAgent_run env query dbResults thread_id u Hc)
      as [-> _].
    eexists (searchQueries query), [_]. split; [reflexivity | cbn; lia].
  - rewrite (webSearchAgent_rejects env _ _ _ e Hc).
    exists [], []. split; [reflexivity | cbn; lia].
Qed.

Lemma callAgent_returns (query thread_id : jsstring) :
  exists v, outcome (callAgent env query thread_id) = Normal v.
Proof.
  rewrite callAgent_decompose. cbn [outcome]. unfold callAgent_from.
  cbn [outcome].
  destruct (outcome (callAgent_try env _ query thread_id));
    eexists; reflexivity.
Qed.

End SearchFacts.

(** X5.  Every directive is searched once, in the order of the list, and
    leaves one entry in the result batch at its own position; the entry
    carries the directive as its [query], whether the search succeeded,
    failed or timed out. *)
Theorem batch_follows_directives
  (env : Env) (queries : list jsstring) :
  fst (fst (search_loop env 0 queries)) = map TavilyInvoked queries
  /\ map entry_query (snd (search_loop env 0 queries)) = map Some queries
  /\ List.length (snd (search_loop env 0 queries)) = List.length queries.
Proof.
  split; [apply search_loop_events|].
  split; [apply search_loop_queries | apply search_loop_entries].
Qed.

(** X6.  A search that is slow or fails changes its own entry only: two
    environments whose web search differs at one position of the list give
    the same entry at every other position. *)
Theorem slow_search_degrades_only_itself
  (env1 env2 : Env) (queries : list jsstring) (k : nat) :
  (forall j q, j <> k -> tavily env1 j q = tavily env2 j q) ->
  forall j, j <> k ->
    nth_error (snd (search_loop env1 0 queries)) j
    = nth_error (snd (search_loop env2 0 queries)) j.
Proof.
  intros H j Hj. rewrite !search_loop_nth. cbn [Nat.add].
  destruct (nth_error queries j) as [q|]; [|reflexivity].
  cbn [option_map]. unfold search_one. rewrite (H j q Hj). reflexivity.
Qed.

Lemma slow_search_degrades_only_itself_witness :
  nth_error
    (snd (search_loop env_forward_once 0 [js "a"; js "b"; js "c"])) 2
  = nth_error
      (snd (search_loop env_second_slow 0 [js "a"; js "b"; js "c"])) 2.
Proof.
  apply (slow_search_degrades_only_itself env_forward_once env_second_slow
           [js "a"; js "b"; js "c"] 1%nat).
  - intros j q Hj. destruct j as [|[|j]]; [reflexivity | lia | reflexivity].
  - lia.
Defined.

(** X7.  The web agent settles within ten seconds per directive plus the
    fifteen seconds of the synthesis call, however slow its collaborators
    are. *)
Theorem web_agent_settles_in_time
  (env : Env) (query dbResults thread_id : jsstring) :
  settles_after (web_promise (webSearchAgent env query dbResults thread_id))
  <= 10000 * N.of_nat (List.length (searchQueries query)) + 15000.
Proof.
  pose proof (webSearchAgent_time env query dbResults thread_id) as H.
  unfold search_timeout, processing_timeout in H. exact H.
Qed.

(** X8.  In web-only mode on a query that is not JSON text there is one
    directive, so the web agent settles before the stage timer fires: once
    its clients exist, the controller's output is the web agent's output
    and never the nothing-found text of the stage. *)
Theorem plain_query_web_only_never_times_out
  (env : Env) (query thread_id s : jsstring) :
  includes s PASS_TO_WEB_AGENT = false ->
  includes s NO_RESULTS_FOUND = true ->
  JSON_parse query = None ->
  new_clients env = Normal tt ->
  searches_issued
    (trace (callAgent_from env (Normal (Text s)) query thread_id))
  = [query]
  /\ exists out,
       settlement
         (web_promise
            (webSearchAgent env query (js "No database results found.")
               thread_id))
       = Normal out
       /\ outcome (callAgent_from env (Normal (Text s)) query thread_id)
          = Normal out.
Proof.
  intros Hp Hn Hq Hc.
  pose proof (searchQueries_unparseable query Hq) as Hd.
  unfold callAgent_from. rewrite (callAgent_try_no_results env _ _ _ Hp Hn).
  split.
  - unfold web_stage. cbn [trace searches_issued].
    rewrite (proj2 (webSearchAgent_trace env _ _ _)), Hc. exact Hd.
  - destruct (webSearchAgent_resolves env query
                (js "No database results found.") thread_id tt Hc)
      as [out Hout].
    exists out. split; [exact Hout|].
    rewrite (web_stage_in_time env _ _ _ _ tt Hc), Hout; [reflexivity|].
    rewrite Hd. cbn. lia.
Qed.

Lemma plain_query_web_only_never_times_out_witness :
  JSON_parse brunch_query = None
  /\ new_clients env_all_down = Normal tt
  /\ searches_issued
       (trace (callAgent_from env_all_down (Normal (Text NO_RESULTS_FOUND))
                 brunch_query thread))
     = [brunch_query].
Proof.
  split; [reflexivity|]. split; [reflexivity|].
  apply (plain_query_web_only_never_times_out env_all_down brunch_query thread
           NO_RESULTS_FOUND); reflexivity.
Defined.

(** X9.  On the forward path the controller's output is the web agent's
    output when that arrives within the stage deadline; when the web agent
    rejects or the deadline passes first, it is the marker line, the
    could-not-verify line and the text in front of the first marker,
    untrimmed. *)
Theorem forward_stage_outcome
  (env : Env) (query thread_id s : jsstring) :
  includes s PASS_TO_WEB_AGENT = true ->
  let before := text_before s PASS_TO_WEB_AGENT in
  let block := text_before (text_after s PASS_TO_WEB_AGENT) PASS_TO_WEB_AGENT in
  let web :=
    web_promise
      (webSearchAgent env
         (stringify (Number_toString env)
            (enhancedQuery query (trim block) (trim before)))
         s thread_id) in
  outcome (callAgent_from env (Normal (Text s)) query thread_id)
  = match settlement web with
    | Normal out =>
        if settles_after web <? web_search_process_timeout
        then Normal out
        else Normal (Text (unverified before))
    | Throw _ => Normal (Text (unverified before))
    end
  /\ startsWith (unverified before) RECOMMENDATIONS = true
  /\ match new_clients env with
     | Normal _ => exists out, settlement web = Normal out
     | Throw e => settlement web = Throw e
     end.
Proof.
  intros H before block web. unfold callAgent_from.
  rewrite (callAgent_try_forward env _ _ _ H). fold before block.
  split; [|split].
  - pose proof (web_stage_outcome env
                  (stringify (Number_toString env)
                     (enhancedQuery query (trim block) (trim before)))
                  s thread_id (unverified before)) as Ho.
    cbv zeta in Ho. fold web in Ho. rewrite Ho.
    destruct (settlement web); [destruct (_ <? _)|]; reflexivity.
  - unfold unverified. apply startsWith_app.
  - destruct (new_clients env) as [u|e] eqn:Hc.
    + subst web. eapply webSearchAgent_resolves. exact Hc.
    + subst web. rewrite (webSearchAgent_rejects env _ _ _ e Hc). reflexivity.
Qed.

Lemma forward_stage_outcome_witness :
  includes one_marker_text PASS_TO_WEB_AGENT = true
  /\ outcome (callAgent_from env_no_clients (Normal (Text one_marker_text))
                brunch_query thread)
     = Normal (Text (unverified (js "Sunday Jazz Brunch @jazzbrunchatl"
                                 ++ [10]))).
Proof.
  split; [reflexivity|].
  pose proof (forward_stage_outcome env_no_clients brunch_query thread
                one_marker_text eq_refl) as H.
  cbv zeta in H. destruct H as (H & _ & _).
  rewrite H. vm_compute. reflexivity.
Defined.

(** X10.  A run of the controller first does the retrieval and then, at
    most once, calls the web agent; the web agent's searches come next and
    at most one synthesis call comes last.  No search or synthesis happens
    without a call of the web agent. *)
Theorem controller_trace_shape (env : Env) (query thread_id : jsstring) :
  exists retrieval web,
    trace (callAgent env query thread_id) = retrieval ++ web
    /\ retrieval = fst (eventLookupAgent env query thread_id)
    /\ forallb retrieval_event retrieval = true
    /\ (web = []
        \/ exists handoff dbResults searches prompts,
             web = WebSearchAgentCalled handoff dbResults
                   :: map TavilyInvoked searches
                   ++ map SynthesisInvoked prompts
             /\ (List.length prompts <= 1)%nat).
Proof.
  exists (fst (eventLookupAgent env query thread_id)).
  exists (trace (callAgent_from env
                   (Normal (snd (eventLookupAgent env query thread_id)))
                   query thread_id)).
  split; [rewrite callAgent_decompose; reflexivity|].
  split; [reflexivity|]. split; [apply run_graph_events|].
  unfold callAgent_from. cbn [trace].
  destruct (snd (eventLookupAgent env query thread_id)) as [s|blocks];
    [|left; reflexivity].
  assert (forall q d o,
             exists handoff dbResults searches prompts,
               trace (web_stage env q d thread_id o)
               = WebSearchAgentCalled handoff dbResults
                 :: map TavilyInvoked searches
                 ++ map SynthesisInvoked prompts
               /\ (List.length prompts <= 1)%nat) as Hweb.
  { intros q d o. unfold web_stage. cbn [trace].
    destruct (web_trace_shape env q d thread_id)
      as (searches & prompts & -> & Hl).
    exists q, d, searches, prompts. split; [reflexivity | exact Hl]. }
  destruct (includes s PASS_TO_WEB_AGENT) eqn:Hp.
  - right. rewrite (callAgent_try_forward env _ _ _ Hp). apply Hweb.
  - destruct (includes s NO_RESULTS_FOUND) eqn:Hn.
    + right. rewrite (callAgent_try_no_results env _ _ _ Hp Hn). apply Hweb.
    + left. rewrite (callAgent_try_plain env _ _ _ Hp Hn). reflexivity.
Qed.

(** * The HTTP handlers *)

Section ServerFacts.

Lemma js_injective (a b : string) : js a = js b -> a = b.
Proof.
  unfold js. intros H.
  rewrite <- (string_of_list_ascii_of_string a),
          <- (string_of_list_ascii_of_string b).
  f_equal. revert H.
  generalize (list_ascii_of_string a) (list_ascii_of_string b).
  induction l as [|x l IH]; intros [|y l'] H; try discriminate;
    [reflexivity|].
  cbn [map] in H. injection H as Hxy Hl.
  f_equal; [|exact (IH _ Hl)].
  rewrite <- (ascii_N_embedding x), <- (ascii_N_embedding y), Hxy.
  reflexivity.
Qed.

Lemma thread_of_clock_injective (a b : N) :
  Server.thread_of_clock a = Server.thread_of_clock b -> a = b.
Proof.
  unfold Server.thread_of_clock. intros H. apply js_injective in H.
  apply (f_equal NilEmpty.uint_of_string) in H.
  rewrite !NilEmpty.usu in H. injection H as H.
  rewrite <- (DecimalN.Unsigned.of_to a), <- (DecimalN.Unsigned.of_to b), H.
  reflexivity.
Qed.

End ServerFacts.

(** X11.  A chat request with a string message is always answered with
    status 200: the 500 branch of the two handlers is never taken, since
    the controller returns on every run.  The body of a new chat carries
    the thread id made from the clock and the controller's output; the
    body of a follow-up carries the output alone. *)
Theorem chat_handlers_answer_200
  (env : Env) (now : N) (threadId message : jsstring) :
  (exists response,
      outcome (callAgent env message (Server.thread_of_clock now))
      = Normal response
      /\ snd (Server.post_chat env now message)
         = {| Server.status := 200;
              Server.body :=
                JObject [(js "threadId",
                          JString (Server.thread_of_clock now));
                         (js "response", Server.content_json response)] |})
  /\ (exists response,
         outcome (callAgent env message threadId) = Normal response
         /\ snd (Server.post_chat_thread env threadId message)
            = {| Server.status := 200;
                 Server.body :=
                   JObject [(js "response",
                             Server.content_json response)] |}).
Proof.
  split.
  - destruct (callAgent_returns env message (Server.thread_of_clock now))
      as [v Hv].
    exists v. split; [exact Hv|].
    unfold Server.post_chat. cbn [snd]. rewrite Hv. reflexivity.
  - destruct (callAgent_returns env message threadId) as [v Hv].
    exists v. split; [exact Hv|].
    unfold Server.post_chat_thread. cbn [snd]. rewrite Hv. reflexivity.
Qed.

(** X12.  Two new chats get the same thread id exactly when they are
    started at the same clock reading, whatever their messages are: chats
    started within one millisecond share a thread. *)
Theorem thread_id_is_the_clock
  (env : Env) (now1 now2 : N) (message1 message2 : jsstring) :
  response_member (js "threadId") (snd (Server.post_chat env now1 message1))
  = response_member (js "threadId") (snd (Server.post_chat env now2 message2))
  <-> now1 = now2.
Proof.
  assert (forall now message,
             response_member (js "threadId")
               (snd (Server.post_chat env now message))
             = Some (JString (Server.thread_of_clock now))) as H.
  { intros now message.
    destruct (callAgent_returns env message (Server.thread_of_clock now))
      as [v Hv].
    unfold Server.post_chat, response_member. cbn [snd]. rewrite Hv.
    reflexivity. }
  rewrite !H. split.
  - intros E. injection E as E. exact (thread_of_clock_injective _ _ E).
  - intros ->. reflexivity.
Qed.

Lemma thread_id_is_the_clock_witness :
  response_member (js "threadId")
    (snd (Server.post_chat env_asks_city 1730000000000 brunch_query))
  = response_member (js "threadId")
      (snd (Server.post_chat env_asks_city 1730000000000
              (js "dinner in Lagos"))).
Proof.
  apply (thread_id_is_the_clock env_asks_city 1730000000000 1730000000000
           brunch_query (js "dinner in Lagos")).
  reflexivity.
Defined.

(** * The seeding script *)

Section SeedFacts.

Lemma includes_app_r (a b : jsstring) (needle : jsstring) :
  includes b needle = true -> includes (a ++ b) needle = true.
Proof.
  intros H. induction a as [|c a IH]; [exact H|].
  cbn [app includes]. rewrite IH. apply orb_true_r.
Qed.

Lemma includes_self (s : jsstring) : includes s s = true.
Proof.
  destruct s; cbn [includes].
  - reflexivity.
  - rewrite <- (app_nil_r (c :: s)) at 1. rewrite startsWith_app.
    reflexivity.
Qed.

Lemma includes_head (label field rest : jsstring) :
  includes (label ++ field ++ rest) (label ++ field) = true.
Proof.
  rewrite app_assoc.
  destruct ((label ++ field) ++ rest) eqn:E; cbn [includes];
    rewrite <- E, startsWith_app; reflexivity.
Qed.

Lemma store_from_prefix (db : Seed.Mongo) (records : list Seed.Document) :
  forall i,
    exists k,
      Seed.stored (fst (Seed.store_from db i records)) = firstn k records
      /\ Seed.closes (fst (Seed.store_from db i records)) = O
      /\ match snd (Seed.store_from db i records) with
         | Normal _ => k = List.length records
         | Throw e =>
             exists record,
               nth_error records k = Some record
               /\ Seed.fromDocuments db (i + k) record = Throw e
         end.
Proof.
  induction records as [|record rest IH]; intros i.
  - exists O. repeat split.
  - cbn [Seed.store_from].
    destruct (Seed.fromDocuments db i record) as [u|e] eqn:E.
    + destruct (IH (S i)) as (k & Hs & Hc & Hk).
      destruct (Seed.store_from db (S i) rest) as [steps r].
      cbn [fst snd] in *. exists (S k).
      cbn [Seed.stored Seed.closes firstn]. rewrite Hs.
      split; [reflexivity|]. split; [exact Hc|].
      destruct r as [u'|e'].
      * cbn [List.length]. rewrite Hk. reflexivity.
      * destruct Hk as (record' & Hn & Hf). exists record'.
        split; [exact Hn|].
        replace (i + S k)%nat with (S i + k)%nat by lia. exact Hf.
    + exists O. cbn [fst snd Seed.stored Seed.closes firstn].
      repeat split. exists record. split; [reflexivity|].
      rewrite Nat.add_0_r. exact E.
Qed.

Lemma stored_app (a b : list Seed.Step) :
  Seed.stored (a ++ b) = Seed.stored a ++ Seed.stored b.
Proof.
  induction a as [|x a IH]; [reflexivity|].
  destruct x; cbn; rewrite ?IH; reflexivity.
Qed.

Lemma closes_app (a b : list Seed.Step) :
  Seed.closes (a ++ b) = (Seed.closes a + Seed.closes b)%nat.
Proof.
  induction a as [|x a IH]; [reflexivity|].
  destruct x; cbn; rewrite ?IH; reflexivity.
Qed.

End SeedFacts.

(** Find a labelled field in the summary text. *)
Ltac find_field :=
  first [ apply includes_head
        | apply includes_self
        | apply includes_app_r; find_field ].

(** X13.  The text that is embedded for a CSV row names every column the
    script reads, under its label and in the script's order of fields; a
    column the row does not have appears as the word [undefined]. *)
Theorem summary_names_every_field (row : Seed.Row) :
  forallb
    (fun hl =>
       includes (Seed.createEventSummary (Seed.event_of_row row))
         (snd hl ++ Seed.shown (Seed.cell row (fst hl))))
    field_labels = true
  /\ Seed.shown None = js "undefined"
  /\ startsWith (Seed.createEventSummary (Seed.event_of_row row))
       (js "Name: " ++ Seed.shown (Seed.cell row (js "name"))) = true.
Proof.
  split; [|split; [reflexivity|]].
  - unfold field_labels. cbn [forallb fst snd].
    unfold Seed.createEventSummary, Seed.event_of_row.
    cbn [Seed.name Seed.type Seed.date Seed.time Seed.location
         Seed.instagram Seed.city Seed.notes Seed.similarTo].
    repeat (apply andb_true_iff; split); try reflexivity; find_field.
  - unfold Seed.createEventSummary, Seed.event_of_row. cbn [Seed.name].
    rewrite app_assoc. apply startsWith_app.
Qed.

(** X14.  Seeding stores the records in the order of the CSV rows and
    stops at the first step that throws: what is stored is a prefix of the
    records, cut at the first failing insert (empty when connecting or the
    ping fails), and the records behind it are not attempted.  The client
    is closed exactly once, as the last step, whatever happened before. *)
Theorem seeding_stores_a_prefix (db : Seed.Mongo) (events : list Seed.Event) :
  let steps := fst (Seed.embedEventsWithVectorSearch db events) in
  let records := map Seed.document_of events in
  (exists k,
      Seed.stored steps = firstn k records
      /\ match snd (Seed.embed_try db events) with
         | Normal _ => k = List.length records
         | Throw e =>
             Seed.connect db = Throw e
             \/ Seed.ping db = Throw e
             \/ exists record,
                  nth_error records k = Some record
                  /\ Seed.fromDocuments db k record = Throw e
         end)
  /\ Seed.closes steps = 1%nat
  /\ last steps Seed.Connected = Seed.CloseCalled
  /\ List.length records = List.length events.
Proof.
  cbv zeta. unfold Seed.embedEventsWithVectorSearch. cbn [fst].
  rewrite stored_app, closes_app, last_last, length_map.
  cbn [Seed.stored Seed.closes]. rewrite app_nil_r.
  unfold Seed.embed_try.
  destruct (Seed.connect db) as [u|e] eqn:Hc.
  - destruct (Seed.ping db) as [u'|e'] eqn:Hp.
    + destruct (store_from_prefix db (map Seed.document_of events) 0%nat)
        as (k & Hs & Hcl & Hk).
      destruct (Seed.store_from db 0 (map Seed.document_of events))
        as [steps r].
      cbn [fst snd Seed.stored Seed.closes] in *. rewrite Hcl.
      repeat split. exists k. split; [exact Hs|].
      destruct r as [u''|e'']; [rewrite Hk; apply length_map|].
      right. right. exact Hk.
    + cbn [fst snd Seed.stored Seed.closes]. repeat split.
      exists O. split; [reflexivity|]. right. left. reflexivity.
  - cbn [fst snd Seed.stored Seed.closes]. repeat split.
    exists O. split; [reflexivity|]. left. reflexivity.
Qed.

(** With three rows and a failing second insert, the first record is
    stored and the third is never tried. *)
Example seeding_stops_at_second :
  Seed.main (db_fails_at 1) (Normal sample_rows)
  = [Seed.Connected; Seed.Pinged;
     Seed.Stored
       (Seed.document_of (Seed.event_of_row (nth 0 sample_rows [])));
     Seed.CloseCalled].
Proof. reflexivity. Qed.

(** * The single-agent version *)

Section LegacyFacts.

Variable env : Env.
Variable tool_failure : ToolCall -> Error -> jsstring.

Lemma legacy_greedy_run_fails (budget : nat) :
  always_requests_tools env ->
  forall node call messages,
    final_state (Legacy.run_graph env tool_failure budget node call messages)
    = Throw GraphRecursionError.
Proof.
  intros Hg. induction budget as [|b IH]; intros node call messages;
    [reflexivity|].
  cbn [Legacy.run_graph]. destruct node.
  - unfold callModel. destruct (Hg call messages) as (reply & -> & Hcalls).
    unfold shouldContinue. rewrite last_tool_calls_reply.
    destruct (tool_calls reply) eqn:E; [congruence|].
    cbn [after final_state]. apply IH.
  - destruct (Legacy.toolNode env tool_failure (last_tool_calls messages))
      as [evs out].
    cbn [after final_state]. apply IH.
Qed.

Lemma legacy_run_tool_agrees (call : ToolCall) :
  store_always_finds env ->
  Legacy.run_tool env tool_failure call = run_tool env call.
Proof.
  intros Hs. unfold Legacy.run_tool, run_tool.
  destruct (jsstring_eqb _ _); [|reflexivity].
  destruct (schema_parse _) as [[q n]|]; [|reflexivity].
  unfold Legacy.eventLookupTool, eventLookupTool.
  destruct (Hs q n) as (doc & docs & ->). reflexivity.
Qed.

Lemma legacy_toolNode_agrees (calls : list ToolCall) :
  store_always_finds env ->
  Legacy.toolNode env tool_failure calls = toolNode env calls.
Proof.
  intros Hs. induction calls as [|c rest IH]; [reflexivity|].
  cbn [Legacy.toolNode toolNode].
  rewrite (legacy_run_tool_agrees c Hs), IH. reflexivity.
Qed.

(** When the steps are short enough for the whole budget to fit in
    before the timeout, the timed run is this version's run. *)
Lemma legacy_run_graph_agrees (m : N) (budget : nat) :
  store_always_finds env ->
  steps_take_less env m ->
  forall node call elapsed messages,
    elapsed + N.of_nat budget * m <= invoke_timeout ->
    Legacy.run_graph env tool_failure budget node call messages
    = run_steps env budget node call elapsed messages.
Proof.
  intros Hs [Hm Ht]. induction budget as [|b IH];
    intros node call elapsed messages Hb; [reflexivity|].
  cbn [Legacy.run_graph run_steps]. destruct node.
  - specialize (Hm call messages).
    destruct (N.ltb_spec (elapsed + model_takes env call messages)
                invoke_timeout) as [_|Hge]; [|lia].
    destruct (callModel env call messages) as [update|e]; [|reflexivity].
    destruct (shouldContinue _); [|reflexivity].
    rewrite (IH tools (S call)
               (elapsed + model_takes env call messages)) by lia.
    reflexivity.
  - specialize (Ht (last_tool_calls messages)).
    rewrite (legacy_toolNode_agrees _ Hs).
    destruct (toolNode env (last_tool_calls messages)) as [evs out].
    destruct (N.ltb_spec (elapsed + tools_take env (last_tool_calls messages))
                invoke_timeout) as [_|Hge]; [|lia].
    rewrite (IH agent call
               (elapsed + tools_take env (last_tool_calls messages))) by lia.
    reflexivity.
Qed.

End LegacyFacts.

(** X15.  The single-agent controller has no catch: with a model that asks
    for a tool on every reply its promise rejects with the step-limit
    error, where the lookup agent of the two-agent version returns the
    no-results marker on the same run. *)
Theorem legacy_throws_at_step_limit
  (env : Env) (tool_failure : ToolCall -> Error -> jsstring)
  (query thread_id : jsstring) :
  always_requests_tools env ->
  snd (Legacy.callAgent env tool_failure query thread_id)
  = Throw GraphRecursionError
  /\ snd (eventLookupAgent env query thread_id) = Text NO_RESULTS_FOUND.
Proof.
  intros Hg. split.
  - unfold Legacy.callAgent. cbn [snd].
    rewrite (legacy_greedy_run_fails env tool_failure recursionLimit Hg).
    reflexivity.
  - unfold eventLookupAgent, run_graph. cbn [snd].
    destruct (greedy_run_fails env recursionLimit Hg agent 0%nat 0
                (checkpoint env thread_id ++ [HumanMessage (Text query)]))
      as [-> | ->]; reflexivity.
Qed.

Lemma legacy_throws_at_step_limit_witness :
  always_requests_tools env_greedy
  /\ snd (Legacy.callAgent env_greedy failure_text brunch_query thread)
     = Throw GraphRecursionError.
Proof.
  split; [exact env_greedy_always_requests_tools|].
  apply (legacy_throws_at_step_limit env_greedy failure_text brunch_query
           thread).
  exact env_greedy_always_requests_tools.
Defined.

(** X16.  When the vector store never fails and never comes back empty,
    and every model invocation and every round of tool execution settles
    in less than [m] milliseconds with fifteen times [m] within the
    timeout of the two-agent version, the single-agent controller and the
    lookup agent of the two-agent version make the same run on the same
    replies of the model: the same events in the same order, and the same
    content returned; a run the first throws out of is the one the second
    answers with the no-results marker. *)
Theorem legacy_agrees_on_found_results
  (env : Env) (tool_failure : ToolCall -> Error -> jsstring)
  (query thread_id : jsstring) (m : N) :
  store_always_finds env ->
  15 * m <= invoke_timeout ->
  steps_take_less env m ->
  fst (Legacy.callAgent env tool_failure query thread_id)
  = fst (eventLookupAgent env query thread_id)
  /\ match snd (Legacy.callAgent env tool_failure query thread_id) with
     | Normal content => snd (eventLookupAgent env query thread_id) = content
     | Throw _ =>
         snd (eventLookupAgent env query thread_id) = Text NO_RESULTS_FOUND
     end.
Proof.
  intros Hs Hb Ht.
  unfold Legacy.callAgent, eventLookupAgent, run_graph. cbn [fst snd].
  rewrite (legacy_run_graph_agrees env tool_failure m recursionLimit Hs Ht
             agent 0%nat 0)
    by (unfold recursionLimit; cbn [N.of_nat]; lia).
  split; [reflexivity|].
  destruct (final_state (run_steps env recursionLimit agent 0 0 _))
    as [messages|e]; [|reflexivity].
  destruct (last (map Some messages) None); reflexivity.
Qed.

Lemma store_full_always_finds : store_always_finds env_store_full.
Proof. intros query n. eexists _, _. reflexivity. Qed.

Lemma legacy_agrees_on_found_results_witness :
  store_always_finds env_store_full
  /\ 15 * 4000 <= invoke_timeout
  /\ steps_take_less env_store_full 4000
  /\ snd (Legacy.callAgent env_store_full failure_text brunch_query thread)
     = Normal (Text one_marker_text)
  /\ snd (eventLookupAgent env_store_full brunch_query thread)
     = Text one_marker_text.
Proof.
  assert (15 * 4000 <= invoke_timeout) as Hb by (vm_compute; discriminate).
  assert (steps_take_less env_store_full 4000) as Ht
      by (split; intros; reflexivity).
  split; [exact store_full_always_finds|].
  split; [exact Hb|]. split; [exact Ht|]. split; [reflexivity|].
  pose proof (legacy_agrees_on_found_results env_store_full failure_text
                brunch_query thread 4000 store_full_always_finds Hb Ht)
    as [_ H].
  assert (snd (Legacy.callAgent env_store_full failure_text brunch_query
                 thread) = Normal (Text one_marker_text)) as E
      by reflexivity.
  rewrite E in H. exact H.
Defined.

(** * Two edge cases of the web agent *)

Section EdgeFacts.

Lemma skip_ws_blank (s : jsstring) :
  forallb is_json_ws s = true -> skip_ws s = [].
Proof.
  induction s as [|c s IH]; [reflexivity|].
  cbn [forallb skip_ws]. intros H. apply andb_true_iff in H.
  destruct H as [Hc Hs]. rewrite Hc. exact (IH Hs).
Qed.

Lemma JSON_parse_blank (s : jsstring) :
  forallb is_json_ws s = true -> JSON_parse s = None.
Proof.
  intros H. unfold JSON_parse. rewrite (skip_ws_blank _ H). reflexivity.
Qed.

End EdgeFacts.

(** X17.  On the forward path, when the synthesis call fails and the web
    agent has at most two directives, the controller's output is the web
    agent's fallback text built on the whole retrieval output: the text
    shown to the user then holds the forward marker and the directive
    block behind it. *)
Theorem forward_synthesis_failure_shows_marker
  (env : Env) (query thread_id s : jsstring) :
  includes s PASS_TO_WEB_AGENT = true ->
  new_clients env = Normal tt ->
  (List.length
     (trimmed_lines
        (text_before (text_after s PASS_TO_WEB_AGENT) PASS_TO_WEB_AGENT))
   <= 2)%nat ->
  (forall prompt, exists e, settlement (synthesis env prompt) = Throw e) ->
  outcome (callAgent_from env (Normal (Text s)) query thread_id)
  = Normal (Text (fallback s))
  /\ includes (fallback s) PASS_TO_WEB_AGENT = true.
Proof.
  intros H Hc Hn Hf. split.
  - unfold callAgent_from. rewrite (callAgent_try_forward env _ _ _ H).
    set (handoff := stringify (Number_toString env) _).
    rewrite (web_stage_in_time env handoff _ _ _ tt Hc).
    + destruct (webSearchAgent_run env handoff s thread_id tt Hc) as [_ ->].
      destruct (Hf (synthesis_prompt env handoff s
                      (snd (search_loop env 0 (searchQueries handoff)))))
        as [e ->].
      reflexivity.
    + subst handoff.
      rewrite searchQueries_enhancedQuery, trimmed_lines_trim. exact Hn.
  - unfold fallback. rewrite !app_assoc. apply includes_app_r. exact H.
Qed.

Lemma forward_synthesis_failure_shows_marker_witness :
  includes one_marker_text PASS_TO_WEB_AGENT = true
  /\ new_clients env_all_down = Normal tt
  /\ outcome (callAgent_from env_all_down (Normal (Text one_marker_text))
                brunch_query thread)
     = Normal (Text (fallback one_marker_text)).
Proof.
  split; [reflexivity|]. split; [reflexivity|].
  apply (forward_synthesis_failure_shows_marker env_all_down brunch_query
           thread one_marker_text).
  - reflexivity.
  - reflexivity.
  - vm_compute. lia.
  - intros prompt. eexists. reflexivity.
Defined.

(** X18.  A raw query that is empty or holds only spaces, tabs and line
    breaks is not JSON text, so it is the only directive as it stands: the
    web agent searches the web for the blank text. *)
Theorem blank_query_is_searched
  (env : Env) (query dbResults thread_id : jsstring) :
  forallb is_json_ws query = true ->
  new_clients env = Normal tt ->
  searchQueries query = [query]
  /\ searches_issued (web_trace (webSearchAgent env query dbResults thread_id))
     = [query].
Proof.
  intros Hb Hc.
  pose proof (searchQueries_unparseable query (JSON_parse_blank query Hb))
    as Hq.
  split; [exact Hq|].
  rewrite (proj2 (webSearchAgent_trace env query dbResults thread_id)), Hc.
  exact Hq.
Qed.

Lemma blank_query_is_searched_witness :
  forallb is_json_ws [] = true
  /\ searches_issued
       (web_trace
          (webSearchAgent env_all_down []
             (js "No database results found.") thread))
     = [[]].
Proof.
  split; [reflexivity|].
  apply (blank_query_is_searched env_all_down []
           (js "No database results found.") thread); reflexivity.
Defined.
